(** * db-mcp-tool: the [DatabaseService] adapter

    A shallow embedding of [src/services/database.ts] and of the types
    of [src/types/database.ts].  The adapter dispatches on the string
    [config.type] and talks to one of three drivers (pg, mysql2,
    Firestore).  Driver calls are the only effects: they are kept as
    events of a small free monad, so that a method is a finite tree of
    driver calls ending in a completion (a returned value or a thrown
    exception) together with the final content of the object's fields. *)

From Stdlib Require Import String Ascii List ZArith Bool Lia.
From Stdlib Require Import DecimalString DecimalPos DecimalZ.
Import ListNotations.

Local Open Scope list_scope.
Local Open Scope string_scope.

(** ** JavaScript values *)

(** The values that flow through the adapter.  [JNumber n] is the
    number whose value is the integer [n]; the model is meant for the
    safe integers (see [MAX_SAFE_INTEGER] below), and has no fraction,
    [NaN] or infinity.  [JHost] stands for a driver object such as a
    [Date] or a [Buffer], of which the adapter only ever uses the result
    of [toString()]. *)
#[warnings="-register-all"]
Inductive JsValue : Type :=
| JUndefined
| JNull
| JBool (b : bool)
| JNumber (n : Z)
| JString (s : string)
| JArray (elems : list JsValue)
| JObject (props : list (string * JsValue))
| JHost (repr : string).

(** A row of a result set, and more generally the own enumerable
    properties of a plain object, in the order [Object.keys] lists them. *)
Definition Row : Type := list (string * JsValue).



(** [String(n)] for a safe integer [n]: its decimal spelling.  Outside
    the safe integers the function still gives the decimal spelling,
    which is no longer what JavaScript prints: the properties that read
    the text of a number are stated for safe integers. *)
Definition number_to_string (n : Z) : string :=
  NilEmpty.string_of_int (Z.to_int n).

(** [ToString], as applied by template literals and by [join]. *)
Fixpoint ToString (v : JsValue) : string :=
  match v with
  | JUndefined => "undefined"
  | JNull => "null"
  | JBool true => "true"
  | JBool false => "false"
  | JNumber n => number_to_string n
  | JString s => s
  | JArray elems =>
      String.concat ","
        (map (fun x => match x with
                       | JUndefined | JNull => ""
                       | _ => ToString x
                       end) elems)
  | JObject _ => "[object Object]"
  | JHost repr => repr
  end.

(** One element of [Array.prototype.join]: [undefined] and [null] are
    rendered as the empty string, everything else through [ToString]. *)
Definition join_item (v : JsValue) : string :=
  match v with
  | JUndefined | JNull => ""
  | _ => ToString v
  end.

(** [arr.join(sep)] *)
Definition array_join (sep : string) (arr : list JsValue) : string :=
  String.concat sep (map join_item arr).

(** [obj[key]] on a plain object, for a key that the object has or that
    is not found along its prototype chain: the value of the own
    property, or [undefined].  The names that a plain object inherits
    are [Object_prototype_names] below; for one of them that the object
    does not have itself, JavaScript finds the inherited member, which
    this lookup does not. *)
Fixpoint get_prop (obj : Row) (key : string) : JsValue :=
  match obj with
  | [] => JUndefined
  | (k, v) :: rest => if String.eqb k key then v else get_prop rest key
  end.

(** [Object.keys(obj)] *)
Definition Object_keys (obj : Row) : list string := map fst obj.





(** Truthiness, as used by [||]. *)
Definition truthy (v : JsValue) : bool :=
  match v with
  | JUndefined | JNull => false
  | JBool b => b
  | JNumber n => negb (Z.eqb n 0)
  | JString s => negb (String.eqb s "")
  | JArray _ | JObject _ | JHost _ => true
  end.

(** [a || b] *)
Definition js_or (a b : JsValue) : JsValue := if truthy a then a else b.

(** [s.replace(/'/g, "''")]: every single quote is doubled.  The quote
    is an ASCII character, so working on the bytes of the string is the
    same as working on its code units. *)
Fixpoint replace_quotes (s : string) : string :=
  match s with
  | EmptyString => EmptyString
  | String c rest =>
      if Ascii.eqb c "'"
      then String "'" (String "'" (replace_quotes rest))
      else String c (replace_quotes rest)
  end.

(** ** Exceptions *)

(** What a method can throw.  [Error] is [new Error(message)], thrown by
    the adapter itself; [TypeError] is the fault of reading a property of
    [undefined]; [SyntaxError] comes from [JSON.parse]; [DriverError] is a
    rejection handed over by a driver. *)
Inductive Exn : Type :=
| Error (message : string)
| TypeError (message : string)
| SyntaxError (message : string)
| DriverError (message : string).

Inductive Completion (A : Type) : Type :=
| Normal (a : A)
| Abrupt (e : Exn).
Arguments Normal {A} a.
Arguments Abrupt {A} e.

(** ** Reading text *)

Definition is_digit (c : ascii) : bool :=
  ((48 <=? nat_of_ascii c) && (nat_of_ascii c <=? 57))%nat.

(** The longest prefix of digits, and what follows it. *)
Fixpoint span_digits (s : string) : string * string :=
  match s with
  | String c r =>
      if is_digit c
      then let '(ds, rest) := span_digits r in (String c ds, rest)
      else ("", s)
  | EmptyString => ("", "")
  end.

Definition digits_value (ds : string) : option Z :=
  option_map (fun d => Z.of_int (Decimal.Pos d)) (NilEmpty.uint_of_string ds).

(** [s] without its prefix [p], when it starts with [p]. *)
Fixpoint strip_prefix (p s : string) : option string :=
  match p, s with
  | EmptyString, _ => Some s
  | String a p', String b s' => if Ascii.eqb a b then strip_prefix p' s' else None
  | String _ _, EmptyString => None
  end.

(** ** [JSON.parse] *)

(** The parser of the engine, on the texts the relational-B listing
    hands it: arrays of objects whose keys are names and whose members
    are strings, booleans, null, integers, arrays and objects.  Three
    things of the engine's parser are left out, none of which these
    texts have: a number with a fraction or an exponent (the value model
    has no such number, the descent stops there), the engine's sorting
    of keys that are array indices before the others, and the wording of
    the [SyntaxError], which tells where the text stops being JSON and
    changes with the engine's version. *)
Module JSON.

(** The double quote character (code 34). *)
Definition DQUOTE : ascii := Ascii false true false false false true false false.
(** The backslash character (code 92). *)
Definition BACKSLASH : ascii := Ascii false false true true true false true false.

Definition is_ws (c : ascii) : bool :=
  match nat_of_ascii c with
  | 9 | 10 | 13 | 32 => true
  | _ => false
  end.

Fixpoint skip_ws (s : string) : string :=
  match s with
  | String c rest => if is_ws c then skip_ws rest else s
  | EmptyString => s
  end.

Definition hex_digit (c : ascii) : option nat :=
  let n := nat_of_ascii c in
  (if (48 <=? n) && (n <=? 57) then Some (n - 48)
   else if (97 <=? n) && (n <=? 102) then Some (n - 87)
   else if (65 <=? n) && (n <=? 70) then Some (n - 55)
   else None)%nat.

Definition hex4 (a b c d : ascii) : option nat :=
  match hex_digit a, hex_digit b, hex_digit c, hex_digit d with
  | Some x, Some y, Some z, Some w => Some (x * 4096 + y * 256 + z * 16 + w)%nat
  | _, _, _, _ => None
  end.

(** The bytes (UTF-8) of the character a [\uXXXX] escape denotes. *)
Definition utf8 (n : nat) : string :=
  if (n <? 128)%nat then String (ascii_of_nat n) ""
  else if (n <? 2048)%nat then
    String (ascii_of_nat (192 + n / 64))
      (String (ascii_of_nat (128 + n mod 64)) "")
  else
    String (ascii_of_nat (224 + n / 4096))
      (String (ascii_of_nat (128 + (n / 64) mod 64))
         (String (ascii_of_nat (128 + n mod 64)) "")).

Definition simple_escape (c : ascii) : option ascii :=
  if Ascii.eqb c DQUOTE then Some DQUOTE
  else if Ascii.eqb c BACKSLASH then Some BACKSLASH
  else
    match c with
    | "/" => Some "/"
    | "b" => Some (ascii_of_nat 8)
    | "f" => Some (ascii_of_nat 12)
    | "n" => Some (ascii_of_nat 10)
    | "r" => Some (ascii_of_nat 13)
    | "t" => Some (ascii_of_nat 9)
    | _ => None
    end%char.

(** The characters of a string literal, after its opening quote, up to
    and including the closing quote. *)
Fixpoint parse_chars (s : string) : option (string * string) :=
  match s with
  | EmptyString => None
  | String c r =>
      if Ascii.eqb c DQUOTE then Some ("", r)
      else if Ascii.eqb c BACKSLASH then
        match r with
        | EmptyString => None
        | String e r1 =>
            match simple_escape e with
            | Some ch =>
                match parse_chars r1 with
                | Some (t, rest) => Some (String ch t, rest)
                | None => None
                end
            | None =>
                if Ascii.eqb e "u" then
                  match r1 with
                  | String h1 (String h2 (String h3 (String h4 r2))) =>
                      match hex4 h1 h2 h3 h4, parse_chars r2 with
                      | Some n, Some (t, rest) => Some (utf8 n ++ t, rest)
                      | _, _ => None
                      end
                  | _ => None
                  end
                else None
            end
        end
      else if (nat_of_ascii c <? 32)%nat then None
      else
        match parse_chars r with
        | Some (t, rest) => Some (String c t, rest)
        | None => None
        end
  end.

(** A zero followed by more digits. *)
Definition leading_zero (ds : string) : bool :=
  match ds with
  | String c (String _ _) => Ascii.eqb c "0"
  | _ => false
  end.

(** The start of a fraction or of an exponent. *)
Definition starts_fraction (rest : string) : bool :=
  match rest with
  | String c _ => Ascii.eqb c "." || Ascii.eqb c "e" || Ascii.eqb c "E"
  | EmptyString => false
  end.

(** A number without its sign: no leading zero, and neither a fraction
    nor an exponent (the model has the integers only, so a text with one
    of those is not read). *)
Definition parse_unsigned (s : string) : option (Z * string) :=
  let '(ds, rest) := span_digits s in
  if leading_zero ds || starts_fraction rest then None
  else
    match ds with
    | EmptyString => None
    | String _ _ => option_map (fun n => (n, rest)) (digits_value ds)
    end.

Definition parse_number (s : string) : option (JsValue * string) :=
  match s with
  | EmptyString => None
  | String c r =>
      if Ascii.eqb c "-"
      then option_map (fun '(n, rest) => (JNumber (- n), rest)) (parse_unsigned r)
      else option_map (fun '(n, rest) => (JNumber n, rest)) (parse_unsigned s)
  end.

(** Defining a property: a key already present keeps its place and
    takes the new value. *)
Fixpoint set_prop (obj : Row) (key : string) (v : JsValue) : Row :=
  match obj with
  | [] => [(key, v)]
  | (k, w) :: rest =>
      if String.eqb k key then (k, v) :: rest else (k, w) :: set_prop rest key v
  end.

(** The text after the character [ch], white space before it skipped,
    when that is what comes next. *)
Definition expect (ch : ascii) (s : string) : option string :=
  match skip_ws s with
  | String c r => if Ascii.eqb c ch then Some r else None
  | EmptyString => None
  end.

(** The recursive descent.  Every call takes one unit of [fuel]; the
    length of the text is enough of it (see [parse_value_fuel]). *)
Fixpoint parse_value (fuel : nat) (s : string) : option (JsValue * string) :=
  match fuel with
  | O => None
  | S fuel =>
      match skip_ws s with
      | EmptyString => None
      | String c r =>
          if Ascii.eqb c DQUOTE then
            match parse_chars r with
            | Some (t, rest) => Some (JString t, rest)
            | None => None
            end
          else if Ascii.eqb c "[" then
            match expect "]" r with
            | Some rest => Some (JArray [], rest)
            | None =>
                match parse_elements fuel r with
                | Some (vs, rest) => Some (JArray vs, rest)
                | None => None
                end
            end
          else if Ascii.eqb c "{" then
            match expect "}" r with
            | Some rest => Some (JObject [], rest)
            | None =>
                match parse_members fuel [] r with
                | Some (ps, rest) => Some (JObject ps, rest)
                | None => None
                end
            end
          else if Ascii.eqb c "t" then
            option_map (fun rest => (JBool true, rest)) (strip_prefix "rue" r)
          else if Ascii.eqb c "f" then
            option_map (fun rest => (JBool false, rest)) (strip_prefix "alse" r)
          else if Ascii.eqb c "n" then
            option_map (fun rest => (JNull, rest)) (strip_prefix "ull" r)
          else parse_number (String c r)
      end
  end

with parse_elements (fuel : nat) (s : string) : option (list JsValue * string) :=
  match fuel with
  | O => None
  | S fuel =>
      match parse_value fuel s with
      | None => None
      | Some (v, r) =>
          match expect "," r with
          | Some r1 =>
              match parse_elements fuel r1 with
              | Some (vs, rest) => Some (v :: vs, rest)
              | None => None
              end
          | None =>
              match expect "]" r with
              | Some rest => Some ([v], rest)
              | None => None
              end
          end
      end
  end

with parse_members (fuel : nat) (acc : Row) (s : string) : option (Row * string) :=
  match fuel with
  | O => None
  | S fuel =>
      match expect DQUOTE s with
      | None => None
      | Some r =>
          match parse_chars r with
          | None => None
          | Some (key, r1) =>
              match expect ":" r1 with
              | None => None
              | Some r2 =>
                  match parse_value fuel r2 with
                  | None => None
                  | Some (v, r3) =>
                      match expect "," r3 with
                      | Some r4 => parse_members fuel (set_prop acc key v) r4
                      | None =>
                          match expect "}" r3 with
                          | Some rest => Some (set_prop acc key v, rest)
                          | None => None
                          end
                      end
                  end
              end
          end
      end
  end.

(** [JSON.parse(text)]: one value, then nothing but white space.  The
    two messages stand for the engine's; no property reads them. *)
Definition parse (text : string) : Completion JsValue :=
  match parse_value (String.length text) text with
  | Some (v, rest) =>
      match skip_ws rest with
      | EmptyString => Normal v
      | String _ _ => Abrupt (SyntaxError "Unexpected non-whitespace character after JSON")
      end
  | None => Abrupt (SyntaxError "Unexpected token in JSON")
  end.

End JSON.

(** ** Configuration ([src/types/database.ts]) *)

Record DatabaseConnectionConfig : Type := {
  host : option string;
  port : option Z;
  database : option string;
  user : option string;
  password : option string;
  projectId : option string;
  keyFilename : option string
}.

(** [type] is declared as ['postgres' | 'mysql' | 'firestore'], which is
    erased at run time: the methods switch on the string and keep a
    [default] branch for the others. *)
Record DatabaseConfig : Type := {
  type : string;
  connection : DatabaseConnectionConfig
}.

(** The interfaces of the results are erased at run time as well.  A
    [TableInfo] is built by the adapter from whatever the driver put in
    the row, so its fields are values; a [TriggerInfo] or a
    [FunctionInfo] is a row of the driver handed over as it is. *)
Record TableInfo : Type := {
  name : JsValue;
  columns : JsValue
}.

Definition TriggerInfo : Type := Row.

Definition FunctionInfo : Type := Row.

(** ** The drivers *)

(** [new pg.Client(config)] *)
Record PgClient : Type := { pg_options : DatabaseConnectionConfig }.

(** What [mysql.createConnection] resolves to. *)
Record MysqlConnection : Type := { threadId : nat }.

(** [new Firestore(config)], for settings the constructor accepts.  The
    constructor of the driver checks its settings as it is called: a
    [host] that is no host name makes it throw, in the settings or in
    the environment variable that names an emulator.  Of the parameters
    of [DatabaseConnectionConfig] it is [projectId] and [keyFilename]
    that are meant for it, and the [!firestore] tool passes no other. *)
Record Firestore : Type := { fs_settings : DatabaseConnectionConfig }.

Record CollectionReference : Type := { id : string }.

(** The asynchronous driver calls of the adapter, indexed by what their
    promise resolves to: for a query, the rows of the result set
    ([result.rows] for pg, the first component of the pair for mysql2).
    This is the answer to one statement that gives rows, which is what
    every statement of the adapter itself is; a text of several
    statements, or one that gives no result set, handed to
    [executeQuery], resolves to something else than rows and is outside
    the model. *)
Inductive DriverCall : Type -> Type :=
| pg_connect (client : PgClient) : DriverCall unit
| pg_query (client : PgClient) (text : string) (values : list JsValue)
    : DriverCall (list Row)
| pg_end (client : PgClient) : DriverCall unit
| mysql_createConnection (options : DatabaseConnectionConfig)
    : DriverCall MysqlConnection
| mysql_query (conn : MysqlConnection) (sql : string) (values : list JsValue)
    : DriverCall (list Row)
| mysql_end (conn : MysqlConnection) : DriverCall unit
| firestore_listCollections (client : Firestore)
    : DriverCall (list CollectionReference).

(** How a promise settles. *)
Inductive Settled (X : Type) : Type :=
| Fulfilled (x : X)
| Rejected (e : Exn).
Arguments Fulfilled {X} x.
Arguments Rejected {X} e.

(** A computation: it is over, or it awaits a driver call and goes on
    with the way the call settles. *)
Inductive Prog (A : Type) : Type :=
| Done (a : A)
| Await {X : Type} (call : DriverCall X) (k : Settled X -> Prog A).
Arguments Done {A} a.
Arguments Await {A X} call k.

(** ** The adapter object *)

Record DatabaseService : Type := {
  postgresClient : option PgClient;
  mysqlConnection : option MysqlConnection;
  firestoreClient : option Firestore;
  config : DatabaseConfig
}.

(** [new DatabaseService(config)] *)
Definition constructor (cfg : DatabaseConfig) : DatabaseService :=
  {| postgresClient := None;
     mysqlConnection := None;
     firestoreClient := None;
     config := cfg |}.

(** A method body: from the fields of [this] to a computation that ends
    with a completion and the fields as the body left them. *)
Definition M (A : Type) : Type :=
  DatabaseService -> Prog (Completion A * DatabaseService).

Definition ret {A} (a : A) : M A := fun this => Done (Normal a, this).

Definition throw {A} (e : Exn) : M A := fun this => Done (Abrupt e, this).

Fixpoint bind_prog {A B} (p : Prog (Completion A * DatabaseService))
    (f : A -> M B) : Prog (Completion B * DatabaseService) :=
  match p with
  | Done (Normal a, this) => f a this
  | Done (Abrupt e, this) => Done (Abrupt e, this)
  | Await call k => Await call (fun r => bind_prog (k r) f)
  end.

Definition bind {A B} (m : M A) (f : A -> M B) : M B :=
  fun this => bind_prog (m this) f.

Notation "x <- m ;; k" := (bind m (fun x => k))
  (at level 61, m at next level, right associativity).
Notation "m ;;; k" := (bind m (fun _ => k))
  (at level 61, right associativity).

(** [await call]: a rejection is rethrown. *)
Definition await {X} (call : DriverCall X) : M X :=
  fun this =>
    Await call (fun r =>
      match r with
      | Fulfilled x => Done (Normal x, this)
      | Rejected e => Done (Abrupt e, this)
      end).

Definition this_ : M DatabaseService := fun this => Done (Normal this, this).

Definition set_postgresClient (c : PgClient) : M unit :=
  fun this =>
    Done (Normal tt,
          {| postgresClient := Some c;
             mysqlConnection := mysqlConnection this;
             firestoreClient := firestoreClient this;
             config := config this |}).

Definition set_mysqlConnection (c : MysqlConnection) : M unit :=
  fun this =>
    Done (Normal tt,
          {| postgresClient := postgresClient this;
             mysqlConnection := Some c;
             firestoreClient := firestoreClient this;
             config := config this |}).

Definition set_firestoreClient (c : Firestore) : M unit :=
  fun this =>
    Done (Normal tt,
          {| postgresClient := postgresClient this;
             mysqlConnection := mysqlConnection this;
             firestoreClient := Some c;
             config := config this |}).

(** Lifting a completion computed without the drivers. *)
Definition lift {A} (c : Completion A) : M A :=
  match c with
  | Normal a => ret a
  | Abrupt e => throw e
  end.

(** [handle!.member] where the field may still be [undefined]: the
    non-null assertion is erased, and reading a property of [undefined]
    is a [TypeError]. *)
Definition deref {H} (handle : option H) (member : string) : M H :=
  match handle with
  | Some h => ret h
  | None =>
      throw (TypeError
        ("Cannot read properties of undefined (reading '" ++ member ++ "')"))
  end.

(** [arr.map(f)] for a callback that may throw: left to right, the first
    exception ends the traversal. *)
Fixpoint array_map {A B} (f : A -> Completion B) (arr : list A)
    : Completion (list B) :=
  match arr with
  | [] => Normal []
  | x :: rest =>
      match f x with
      | Abrupt e => Abrupt e
      | Normal y =>
          match array_map f rest with
          | Abrupt e => Abrupt e
          | Normal ys => Normal (y :: ys)
          end
      end
  end.

(** ** The statements sent to the relational servers *)

Definition dquote : string := String JSON.DQUOTE "".

Definition pg_tables_query : string :=
  "
          SELECT 
            table_name,
            json_agg(json_build_object(
              'name', column_name,
              'type', data_type,
              'nullable', is_nullable = 'YES'
            )) as columns
          FROM information_schema.columns
          WHERE table_schema = 'public'
          GROUP BY table_name;
        ".

Definition mysql_tables_query : string :=
  "
          SELECT 
            TABLE_NAME as tableName,
            GROUP_CONCAT(
              JSON_OBJECT(
                'name', COLUMN_NAME,
                'type', DATA_TYPE,
                'nullable', IS_NULLABLE = 'YES'
              )
            ) as columns
          FROM information_schema.columns
          WHERE table_schema = DATABASE()
          GROUP BY TABLE_NAME;
        ".

Definition pg_triggers_query : string :=
  "
                    SELECT 
                        trigger_name as name,
                        event_object_table as table,
                        event_manipulation as event,
                        action_timing as timing,
                        action_statement as statement
                    FROM information_schema.triggers
                    WHERE trigger_schema = 'public';
                ".

Definition mysql_triggers_query : string :=
  "
                    SELECT 
                        TRIGGER_NAME as name,
                        EVENT_OBJECT_TABLE as `table`,
                        EVENT_MANIPULATION as event,
                        ACTION_TIMING as timing,
                        ACTION_STATEMENT as statement
                    FROM information_schema.TRIGGERS
                    WHERE TRIGGER_SCHEMA = DATABASE();
                ".

Definition pg_functions_query : string :=
  "
                    SELECT 
                        p.proname as name,
                        l.lanname as language,
                        pg_get_function_result(p.oid) as " ++ dquote ++ "returnType" ++ dquote ++ ",
                        pg_get_function_arguments(p.oid) as arguments,
                        pg_get_functiondef(p.oid) as definition
                    FROM pg_proc p
                    JOIN pg_namespace n ON p.pronamespace = n.oid
                    JOIN pg_language l ON p.prolang = l.oid
                    WHERE n.nspname = 'public';
                ".

Definition mysql_functions_query : string :=
  "
                    SELECT 
                        ROUTINE_NAME as name,
                        'SQL' as language,
                        DTD_IDENTIFIER as returnType,
                        CONCAT_WS(', ', 
                            GROUP_CONCAT(
                                CONCAT(PARAMETER_NAME, ' ', DATA_TYPE)
                                ORDER BY ORDINAL_POSITION
                            )
                        ) as arguments,
                        ROUTINE_DEFINITION as definition
                    FROM information_schema.ROUTINES r
                    LEFT JOIN information_schema.PARAMETERS p
                        ON r.SPECIFIC_NAME = p.SPECIFIC_NAME
                    WHERE r.ROUTINE_SCHEMA = DATABASE()
                        AND r.ROUTINE_TYPE = 'FUNCTION'
                    GROUP BY r.SPECIFIC_NAME;
                ".

Definition pg_schema_query : string :=
  "
                    SELECT 
                        'CREATE TABLE ' || quote_ident($1) || ' (' ||
                        string_agg(
                            quote_ident(column_name) || ' ' ||
                            data_type ||
                            CASE 
                                WHEN character_maximum_length IS NOT NULL 
                                THEN '(' || character_maximum_length || ')'
                                ELSE ''
                            END ||
                            CASE 
                                WHEN is_nullable = 'NO' 
                                THEN ' NOT NULL'
                                ELSE ''
                            END,
                            ', '
                        ) || ');' as create_table_sql
                    FROM information_schema.columns
                    WHERE table_name = $1 AND table_schema = 'public'
                    GROUP BY table_name;
                ".

(** ** The methods of [DatabaseService] *)

(** In the document-store branch the client is built from the settings
    as [Firestore] above has it: the branch awaits nothing. *)
Definition connect : M unit :=
  this <- this_ ;;
  let ty := type (config this) in
  if String.eqb ty "postgres" then
    let cfg := connection (config this) in
    set_postgresClient {| pg_options := cfg |} ;;;
    this <- this_ ;;
    c <- deref (postgresClient this) "connect" ;;
    await (pg_connect c)
  else if String.eqb ty "mysql" then
    let cfg := connection (config this) in
    conn <- await (mysql_createConnection cfg) ;;
    set_mysqlConnection conn
  else if String.eqb ty "firestore" then
    let cfg := connection (config this) in
    set_firestoreClient {| fs_settings := cfg |}
  else ret tt.

Definition getTables : M (list TableInfo) :=
  this <- this_ ;;
  let ty := type (config this) in
  if String.eqb ty "postgres" then
    c <- deref (postgresClient this) "query" ;;
    rows <- await (pg_query c pg_tables_query []) ;;
    ret (map (fun row =>
                {| name := get_prop row "table_name";
                   columns := get_prop row "columns" |}) rows)
  else if String.eqb ty "mysql" then
    c <- deref (mysqlConnection this) "query" ;;
    rows <- await (mysql_query c mysql_tables_query []) ;;
    lift (array_map
            (fun row =>
               match JSON.parse ("[" ++ ToString (get_prop row "columns") ++ "]") with
               | Normal cols =>
                   Normal {| name := get_prop row "tableName"; columns := cols |}
               | Abrupt e => Abrupt e
               end) rows)
  else if String.eqb ty "firestore" then
    c <- deref (firestoreClient this) "listCollections" ;;
    collections <- await (firestore_listCollections c) ;;
    ret (map (fun collection =>
                {| name := JString (id collection); columns := JArray [] |})
             collections)
  else ret [].

Definition getTriggers : M (list TriggerInfo) :=
  this <- this_ ;;
  let ty := type (config this) in
  if String.eqb ty "postgres" then
    c <- deref (postgresClient this) "query" ;;
    rows <- await (pg_query c pg_triggers_query []) ;;
    ret rows
  else if String.eqb ty "mysql" then
    c <- deref (mysqlConnection this) "query" ;;
    rows <- await (mysql_query c mysql_triggers_query []) ;;
    ret rows
  else if String.eqb ty "firestore" then ret []
  else ret [].

Definition getFunctions : M (list FunctionInfo) :=
  this <- this_ ;;
  let ty := type (config this) in
  if String.eqb ty "postgres" then
    c <- deref (postgresClient this) "query" ;;
    rows <- await (pg_query c pg_functions_query []) ;;
    ret rows
  else if String.eqb ty "mysql" then
    c <- deref (mysqlConnection this) "query" ;;
    rows <- await (mysql_query c mysql_functions_query []) ;;
    ret rows
  else if String.eqb ty "firestore" then ret []
  else ret [].

Definition executeQuery (query : string) : M (list Row) :=
  this <- this_ ;;
  let ty := type (config this) in
  if String.eqb ty "postgres" then
    match postgresClient this with
    | None => throw (Error "PostgreSQL connection not found")
    | Some c =>
        rows <- await (pg_query c query []) ;;
        ret rows
    end
  else if String.eqb ty "mysql" then
    match mysqlConnection this with
    | None => throw (Error "MySQL connection not found")
    | Some c =>
        rows <- await (mysql_query c query []) ;;
        ret rows
    end
  else if String.eqb ty "firestore" then
    throw (Error "SQL queries are not supported for Firestore")
  else throw (Error "Unsupported database type").

Definition disconnect : M unit :=
  this <- this_ ;;
  let ty := type (config this) in
  if String.eqb ty "postgres" then
    match postgresClient this with
    | Some c => await (pg_end c)
    | None => ret tt
    end
  else if String.eqb ty "mysql" then
    match mysqlConnection this with
    | Some c => await (mysql_end c)
    | None => ret tt
    end
  else ret tt.

(** [rows[0]?.[key]] *)
Definition first_row_prop (rows : list Row) (key : string) : JsValue :=
  match rows with
  | [] => JUndefined
  | row :: _ => get_prop row key
  end.

Definition exportTableSchema (tableName : string) : M JsValue :=
  this <- this_ ;;
  let ty := type (config this) in
  if String.eqb ty "postgres" then
    match postgresClient this with
    | None => throw (Error "PostgreSQL connection not found")
    | Some c =>
        rows <- await (pg_query c pg_schema_query [JString tableName]) ;;
        ret (js_or (first_row_prop rows "create_table_sql") (JString ""))
    end
  else if String.eqb ty "mysql" then
    match mysqlConnection this with
    | None => throw (Error "MySQL connection not found")
    | Some c =>
        result <- await (mysql_query c "SHOW CREATE TABLE ??" [JString tableName]) ;;
        ret (js_or (first_row_prop result "Create Table") (JString ""))
    end
  else if String.eqb ty "firestore" then
    throw (Error "SQL schema export is not supported for Firestore")
  else throw (Error "Unsupported database type").

(** The callback of [columns.map] in [exportTableData]: one cell. *)
Definition format_cell (val : JsValue) : JsValue :=
  match val with
  | JNull => JString "NULL"
  | JString s => JString ("'" ++ replace_quotes s ++ "'")
  | _ => val
  end.

(** The callback of [rows.map] in [exportTableData]: one statement. *)
Definition insert_statement (tableName : string) (columns : list string)
    (row : Row) : string :=
  let values := map (fun col => format_cell (get_prop row col)) columns in
  "INSERT INTO " ++ tableName ++ " (" ++ array_join ", " (map JString columns)
    ++ ") VALUES (" ++ array_join ", " values ++ ");".

(** The line feed. *)
Definition LF : string := String (ascii_of_nat 10) "".

(** What both relational branches of [exportTableData] do with the rows
    once the select has returned. *)
Definition insert_statements (tableName : string) (rows : list Row) : string :=
  match rows with
  | [] => ""
  | row0 :: _ =>
      let columns := Object_keys row0 in
      let insertStatements := map (insert_statement tableName columns) rows in
      array_join LF (map JString insertStatements)
  end.

Definition exportTableData (tableName : string) : M string :=
  this <- this_ ;;
  let ty := type (config this) in
  if String.eqb ty "postgres" then
    match postgresClient this with
    | None => throw (Error "PostgreSQL connection not found")
    | Some c =>
        let dataQuery := "SELECT * FROM " ++ tableName ++ ";" in
        rows <- await (pg_query c dataQuery []) ;;
        ret (insert_statements tableName rows)
    end
  else if String.eqb ty "mysql" then
    match mysqlConnection this with
    | None => throw (Error "MySQL connection not found")
    | Some c =>
        rows <- await (mysql_query c "SELECT * FROM ??" [JString tableName]) ;;
        ret (insert_statements tableName rows)
    end
  else if String.eqb ty "firestore" then
    throw (Error "SQL data export is not supported for Firestore")
  else throw (Error "Unsupported database type").

(** ** Running a computation against the drivers *)

(** The servers behind the drivers are an oracle: each call is answered
    from the state of the world and may change it. *)
Definition Driver (World : Type) : Type :=
  forall X : Type, DriverCall X -> World -> Settled X * World.

Fixpoint run {World A} (driver : Driver World) (p : Prog A) (w : World)
    : A * World :=
  match p with
  | Done a => (a, w)
  | Await call k =>
      let '(r, w') := driver _ call w in
      run driver (k r) w'
  end.

(** The driver calls a computation makes, in order. *)
Inductive AnyCall : Type :=
| a_call {X : Type} (call : DriverCall X).

Fixpoint trace {World A} (driver : Driver World) (p : Prog A) (w : World)
    : list AnyCall :=
  match p with
  | Done _ => []
  | Await call k =>
      let '(r, w') := driver _ call w in
      a_call call :: trace driver (k r) w'
  end.

(** A driver whose every query returns [rows] and whose listing returns
    [collections]; the world has nothing to remember. *)
Definition canned_driver (rows : list Row)
    (collections : list CollectionReference) : Driver unit :=
  fun X call =>
    match call in DriverCall X return unit -> Settled X * unit with
    | pg_connect _ => fun w => (Fulfilled tt, w)
    | pg_query _ _ _ => fun w => (Fulfilled rows, w)
    | pg_end _ => fun w => (Fulfilled tt, w)
    | mysql_createConnection _ => fun w => (Fulfilled {| threadId := 1 |}, w)
    | mysql_query _ _ _ => fun w => (Fulfilled rows, w)
    | mysql_end _ => fun w => (Fulfilled tt, w)
    | firestore_listCollections _ => fun w => (Fulfilled collections, w)
    end.

(** ** The error conditions of the specification *)

(** Failing at once, before any driver call, with an exception in [P]. *)
Definition fails_with {A} (P : Exn -> Prop)
    (p : Prog (Completion A * DatabaseService)) : Prop :=
  exists e that, p = Done (Abrupt e, that) /\ P e.

(** The explicit guards of the adapter for a missing handle. *)
Definition NotConnected (e : Exn) : Prop :=
  e = Error "PostgreSQL connection not found"
  \/ e = Error "MySQL connection not found".

(** A fault of the null-reference class. *)
Definition NullReference (e : Exn) : Prop :=
  exists message, e = TypeError message.

Definition no_parameters : DatabaseConnectionConfig :=
  {| host := None; port := None; database := None; user := None;
     password := None; projectId := None; keyFilename := None |}.

Definition recognized (ty : string) : Prop :=
  ty = "postgres" \/ ty = "mysql" \/ ty = "firestore".

(** A reading that succeeds with some fuel consumes at least one
    character, and succeeds alike with any fuel that is at least the
    number of characters consumed. *)
Definition fuel_enough {R : Type} (reader : nat -> string -> option (R * string))
    (fuel : nat) : Prop :=
  forall s x r,
    reader fuel s = Some (x, r) ->
    String.length r < String.length s
    /\ forall fuel', String.length s - String.length r <= fuel' ->
                     reader fuel' s = Some (x, r).

(** ** The column catalog and its two aggregates *)

(** A line of [information_schema.columns], as far as the two
    [getTables] statements read it, and the lines of one table, as
    [GROUP BY] hands them to the aggregate. *)
Record CatalogColumn : Type := {
  column_name : string;
  data_type : string;
  is_nullable : string
}.

Record CatalogTable : Type := {
  table_name : string;
  table_columns : list CatalogColumn
}.

(** Relational-A: [json_build_object('name', column_name, 'type',
    data_type, 'nullable', is_nullable = 'YES')], which the driver hands
    over as an object. *)
Definition json_build_object (c : CatalogColumn) : JsValue :=
  JObject [ ("name", JString (column_name c));
            ("type", JString (data_type c));
            ("nullable", JBool (String.eqb (is_nullable c) "YES")) ].

(** [json_agg]: a native array. *)
Definition json_agg (values : list JsValue) : JsValue := JArray values.

Definition pg_tables_row (t : CatalogTable) : Row :=
  [ ("table_name", JString (table_name t));
    ("columns", json_agg (map json_build_object (table_columns t))) ].

Definition hex_char (n : nat) : ascii :=
  if (n <? 10)%nat then ascii_of_nat (48 + n) else ascii_of_nat (87 + n).

(** The spelling of one character inside a JSON string, as the
    relational-B server prints it. *)
Definition json_escape_char (c : ascii) : string :=
  let backslash := String JSON.BACKSLASH "" in
  if Ascii.eqb c JSON.DQUOTE then backslash ++ dquote
  else if Ascii.eqb c JSON.BACKSLASH then backslash ++ backslash
  else
    match nat_of_ascii c with
    | 8 => backslash ++ "b"
    | 9 => backslash ++ "t"
    | 10 => backslash ++ "n"
    | 12 => backslash ++ "f"
    | 13 => backslash ++ "r"
    | n =>
        if (n <? 32)%nat
        then backslash ++ "u00"
               ++ String (hex_char (n / 16)) (String (hex_char (n mod 16)) "")
        else String c ""
    end.

Fixpoint json_escape (s : string) : string :=
  match s with
  | EmptyString => EmptyString
  | String c rest => json_escape_char c ++ json_escape rest
  end.

Definition json_quote (s : string) : string :=
  dquote ++ json_escape s ++ dquote.

(** Relational-B: [JSON_OBJECT('name', COLUMN_NAME, 'type', DATA_TYPE,
    'nullable', IS_NULLABLE = 'YES')], a JSON text. *)
Definition JSON_OBJECT (c : CatalogColumn) : string :=
  "{" ++ json_quote "name" ++ ": " ++ json_quote (column_name c)
    ++ ", " ++ json_quote "type" ++ ": " ++ json_quote (data_type c)
    ++ ", " ++ json_quote "nullable" ++ ": "
    ++ (if String.eqb (is_nullable c) "YES" then "true" else "false")
    ++ "}".

(** The server variable [group_concat_max_len] at its default, which
    the statement of [getTables] leaves as it is. *)
Definition group_concat_max_len : nat := 1024.

(** [GROUP_CONCAT]: the fragments, separated by commas, cut at
    [group_concat_max_len] bytes. *)
Definition GROUP_CONCAT (fragments : list string) : string :=
  substring 0 group_concat_max_len (String.concat "," fragments).

(** The concatenation of the columns of the table is within the limit,
    so that the server hands it over whole. *)
Definition within_group_concat_max_len (t : CatalogTable) : Prop :=
  String.length (String.concat "," (map JSON_OBJECT (table_columns t)))
  <= group_concat_max_len.

Definition mysql_tables_row (t : CatalogTable) : Row :=
  [ ("tableName", JString (table_name t));
    ("columns", JString (GROUP_CONCAT (map JSON_OBJECT (table_columns t)))) ].

(** The Table Descriptor of the specification for a catalog table:
    its name, and one [{name, type, nullable}] per column. *)
Definition table_descriptor (t : CatalogTable) : TableInfo :=
  {| name := JString (table_name t);
     columns :=
       JArray (map (fun c =>
                      JObject [ ("name", JString (column_name c));
                                ("type", JString (data_type c));
                                ("nullable",
                                 JBool (String.eqb (is_nullable c) "YES")) ])
                   (table_columns t)) |}.

(** On a connected relational adapter, the statement that [getTables]
    sends is answered with [rows]. *)
Definition tables_query_returns {World} (driver : Driver World)
    (this : DatabaseService) (w : World) (rows : list Row) (w' : World) : Prop :=
  (type (config this) = "postgres"
   /\ exists c, postgresClient this = Some c
        /\ driver _ (pg_query c pg_tables_query []) w = (Fulfilled rows, w'))
  \/ (type (config this) = "mysql"
   /\ exists c, mysqlConnection this = Some c
        /\ driver _ (mysql_query c mysql_tables_query []) w = (Fulfilled rows, w')).

Definition users_catalog : list CatalogTable :=
  [ {| table_name := "users";
       table_columns :=
         [ {| column_name := "id"; data_type := "int"; is_nullable := "NO" |};
           {| column_name := "name"; data_type := "varchar"; is_nullable := "YES" |} ] |};
    {| table_name := "orders";
       table_columns :=
         [ {| column_name := "total"; data_type := "decimal"; is_nullable := "NO" |} ] |} ].

(** A table of twenty columns, as an application has them. *)
Definition customers_table : CatalogTable :=
  let column (name type nullable : string) :=
    {| column_name := name; data_type := type; is_nullable := nullable |} in
  {| table_name := "customers";
     table_columns :=
       [ column "id" "int" "NO";
         column "first_name" "varchar" "NO";
         column "last_name" "varchar" "NO";
         column "email" "varchar" "NO";
         column "phone" "varchar" "YES";
         column "street" "varchar" "YES";
         column "city" "varchar" "YES";
         column "region" "varchar" "YES";
         column "postal_code" "varchar" "YES";
         column "country" "varchar" "YES";
         column "company" "varchar" "YES";
         column "job_title" "varchar" "YES";
         column "birth_date" "date" "YES";
         column "created_at" "timestamp" "NO";
         column "updated_at" "timestamp" "NO";
         column "last_login" "timestamp" "YES";
         column "is_active" "tinyint" "NO";
         column "newsletter" "tinyint" "NO";
         column "notes" "text" "YES";
         column "referrer" "varchar" "YES" ] |}.

(** ** Reading the exported statements back *)

(** A reader of the text [exportTableData] writes, for one who knows the
    name of the table and its columns: it takes the header of each
    statement as it was written, letter by letter, and reads the values
    by the syntax the export gives them: [NULL], [true], [false], a
    decimal integer, or a string between single quotes in which a
    doubled quote stands for one quote.  It is the inverse of the
    export and no model of a database server: it does not read the
    header as SQL (the export writes identifiers bare, which a server
    folds, rejects when reserved, or splits at a space or comma) and it
    gives the backslash no meaning (relational-B, as it is set up by
    default, reads a backslash in a string as an escape). *)
Module ExportReader.

(** A string literal after its opening quote. *)
Fixpoint read_quoted (s : string) : option (string * string) :=
  match s with
  | EmptyString => None
  | String c r =>
      if Ascii.eqb c "'" then
        match r with
        | String c1 r1 =>
            if Ascii.eqb c1 "'" then
              match read_quoted r1 with
              | Some (t, rest) => Some (String "'" t, rest)
              | None => None
              end
            else Some ("", r)
        | EmptyString => Some ("", "")
        end
      else
        match read_quoted r with
        | Some (t, rest) => Some (String c t, rest)
        | None => None
        end
  end.

Definition read_digits (s : string) : option (Z * string) :=
  let '(ds, rest) := span_digits s in
  match ds with
  | EmptyString => None
  | String _ _ => option_map (fun n => (n, rest)) (digits_value ds)
  end.

Definition read_integer (s : string) : option (Z * string) :=
  match s with
  | String "-" r => option_map (fun '(n, rest) => (- n, rest)%Z) (read_digits r)
  | _ => read_digits s
  end%char.

Definition read_literal (s : string) : option (JsValue * string) :=
  match s with
  | EmptyString => None
  | String c r =>
      if Ascii.eqb c "'" then
        option_map (fun '(t, rest) => (JString t, rest)) (read_quoted r)
      else if is_digit c || Ascii.eqb c "-" then
        option_map (fun '(n, rest) => (JNumber n, rest)) (read_integer s)
      else
        match c with
        | "N"%char => option_map (fun rest => (JNull, rest)) (strip_prefix "ULL" r)
        | "t"%char => option_map (fun rest => (JBool true, rest)) (strip_prefix "rue" r)
        | "f"%char => option_map (fun rest => (JBool false, rest)) (strip_prefix "alse" r)
        | _ => None
        end
  end.

(** One literal for each column, separated by a comma and a space. *)
Fixpoint read_values (columns : list string) (s : string)
    : option (list JsValue * string) :=
  match columns with
  | [] => Some ([], s)
  | _ :: more =>
      match read_literal s with
      | None => None
      | Some (v, r) =>
          match more with
          | [] => Some ([v], r)
          | _ :: _ =>
              match strip_prefix ", " r with
              | None => None
              | Some r1 =>
                  match read_values more r1 with
                  | Some (vs, rest) => Some (v :: vs, rest)
                  | None => None
                  end
              end
          end
      end
  end.

(** One statement for the table: the row it inserts, and the text after
    it. *)
Definition read_statement (tableName : string) (columns : list string)
    (s : string) : option (Row * string) :=
  match strip_prefix ("INSERT INTO " ++ tableName ++ " ("
                        ++ String.concat ", " columns ++ ") VALUES (") s with
  | None => None
  | Some r =>
      match read_values columns r with
      | None => None
      | Some (vs, r1) =>
          match strip_prefix ");" r1 with
          | None => None
          | Some rest => Some (combine columns vs, rest)
          end
      end
  end.

(** The statements of a script, one per line.  A statement is never
    empty, so the length of the text is fuel enough. *)
Fixpoint read_script (fuel : nat) (tableName : string) (columns : list string)
    (s : string) : option (list Row) :=
  match fuel with
  | O => None
  | S fuel =>
      match read_statement tableName columns s with
      | None => None
      | Some (row, rest) =>
          match rest with
          | EmptyString => Some [row]
          | String c r =>
              if Ascii.eqb c (ascii_of_nat 10) then
                match read_script fuel tableName columns r with
                | Some rows => Some (row :: rows)
                | None => None
                end
              else None
          end
      end
  end.



End ExportReader.

(** How a relational-B server, set up by default, reads a string
    literal after its opening quote: a doubled quote stands for one
    quote, as in [ExportReader.read_quoted], but a backslash escapes the
    character after it ([\n] is a line feed, [\t] a tab, [\0] the null
    byte, ...; before [%] and [_] it stays, before any other character
    it is dropped). *)
Module RelationalB.

Definition escape (c : ascii) : string :=
  if Ascii.eqb c "n" then String (ascii_of_nat 10) ""
  else if Ascii.eqb c "t" then String (ascii_of_nat 9) ""
  else if Ascii.eqb c "r" then String (ascii_of_nat 13) ""
  else if Ascii.eqb c "b" then String (ascii_of_nat 8) ""
  else if Ascii.eqb c "0" then String (ascii_of_nat 0) ""
  else if Ascii.eqb c "Z" then String (ascii_of_nat 26) ""
  else if Ascii.eqb c "%" || Ascii.eqb c "_" then String JSON.BACKSLASH (String c "")
  else String c "".

Fixpoint read_quoted (s : string) : option (string * string) :=
  match s with
  | EmptyString => None
  | String c r =>
      if Ascii.eqb c "'" then
        match r with
        | String c1 r1 =>
            if Ascii.eqb c1 "'" then
              match read_quoted r1 with
              | Some (t, rest) => Some (String "'" t, rest)
              | None => None
              end
            else Some ("", r)
        | EmptyString => Some ("", "")
        end
      else if Ascii.eqb c JSON.BACKSLASH then
        match r with
        | String c1 r1 =>
            match read_quoted r1 with
            | Some (t, rest) => Some (escape c1 ++ t, rest)
            | None => None
            end
        | EmptyString => None
        end
      else
        match read_quoted r with
        | Some (t, rest) => Some (String c t, rest)
        | None => None
        end
  end.

End RelationalB.




Definition obrien_rows : list Row :=
  [ [("id", JNumber 1); ("name", JString "O'Brien")];
    [("id", JNumber (-2)); ("name", JNull)];
    [("id", JBool true); ("name", JString "")] ].



(** ** Adapters and statements used in the properties *)

Definition firestore_config : DatabaseConfig :=
  {| type := "firestore"; connection := no_parameters |}.

Definition sqlite_config : DatabaseConfig :=
  {| type := "sqlite"; connection := no_parameters |}.

Definition postgres_config : DatabaseConfig :=
  {| type := "postgres"; connection := no_parameters |}.

Definition mysql_config : DatabaseConfig :=
  {| type := "mysql"; connection := no_parameters |}.

(** The descriptor [getTables] builds for a collection. *)
Definition collection_descriptor (collection : CollectionReference) : TableInfo :=
  {| name := JString (id collection); columns := JArray [] |}.

Definition firestore_connected : DatabaseService :=
  {| postgresClient := None;
     mysqlConnection := None;
     firestoreClient := Some {| fs_settings := no_parameters |};
     config := firestore_config |}.

Definition postgres_connected : DatabaseService :=
  {| postgresClient := Some {| pg_options := no_parameters |};
     mysqlConnection := None;
     firestoreClient := None;
     config := postgres_config |}.

Definition mysql_connected : DatabaseService :=
  {| postgresClient := None;
     mysqlConnection := Some {| threadId := 1 |};
     firestoreClient := None;
     config := mysql_config |}.

(** On a connected relational adapter, the select that [exportTableData]
    sends for [tableName] is answered with [rows]. *)
Definition select_returns {World} (driver : Driver World)
    (this : DatabaseService) (tableName : string)
    (w : World) (rows : list Row) (w' : World) : Prop :=
  (type (config this) = "postgres"
   /\ exists c, postgresClient this = Some c
        /\ driver _ (pg_query c ("SELECT * FROM " ++ tableName ++ ";") []) w
           = (Fulfilled rows, w'))
  \/ (type (config this) = "mysql"
   /\ exists c, mysqlConnection this = Some c
        /\ driver _ (mysql_query c "SELECT * FROM ??" [JString tableName]) w
           = (Fulfilled rows, w')).

(** On a connected relational adapter, the statement that
    [exportTableSchema] sends for [tableName] is answered with [rows]. *)
Definition schema_query_returns {World} (driver : Driver World)
    (this : DatabaseService) (tableName : string)
    (w : World) (rows : list Row) (w' : World) : Prop :=
  (type (config this) = "postgres"
   /\ exists c, postgresClient this = Some c
        /\ driver _ (pg_query c pg_schema_query [JString tableName]) w
           = (Fulfilled rows, w'))
  \/ (type (config this) = "mysql"
   /\ exists c, mysqlConnection this = Some c
        /\ driver _ (mysql_query c "SHOW CREATE TABLE ??" [JString tableName]) w
           = (Fulfilled rows, w')).

(** On a connected relational adapter, the statement that
    [exportTableSchema] sends for [tableName] is rejected with [e]. *)
Definition schema_query_rejected {World} (driver : Driver World)
    (this : DatabaseService) (tableName : string)
    (w : World) (e : Exn) (w' : World) : Prop :=
  (type (config this) = "postgres"
   /\ exists c, postgresClient this = Some c
        /\ driver _ (pg_query c pg_schema_query [JString tableName]) w
           = (Rejected e, w'))
  \/ (type (config this) = "mysql"
   /\ exists c, mysqlConnection this = Some c
        /\ driver _ (mysql_query c "SHOW CREATE TABLE ??" [JString tableName]) w
           = (Rejected e, w')).

(** The answer of a relational-B server to a statement about a table it
    does not have (error 1146). *)
Definition no_such_table : Exn := DriverError "Table 'shop.users' doesn't exist".




Definition users_rows : list Row := [ [("id", JNumber 1); ("name", JNull)] ].

(** ** The export text in the words of the specification

    What follows is written from the formatting rule of the
    specification and not from the method: the properties compare the
    text of [exportTableData] with it. *)

(** The single quote (code 39) and the line feed (code 10). *)
Definition QUOTE : ascii := Ascii true true true false false true false false.
Definition NEWLINE : ascii := Ascii false true false true false false false false.

(** The string with every single quote in it written twice. *)
Definition quotes_doubled (s : string) : string :=
  string_of_list_ascii
    (flat_map (fun c => if Ascii.eqb c QUOTE then [QUOTE; QUOTE] else [c])
              (list_ascii_of_string s)).

(** The value formatting rule: the token [NULL] for null, a string
    between single quotes with its quotes doubled, the default textual
    representation for anything else. *)
Definition formatted_value (v : JsValue) : string :=
  match v with
  | JNull => "NULL"
  | JString s => String QUOTE (quotes_doubled s ++ String QUOTE "")
  | _ => ToString v
  end.





(** ** The command shell ([src/index.ts]) *)

(** What a tool hands back: the [text] of each of its [content] items,
    all of type "text", and [isError], which is absent on success.  A
    text is a string everywhere but in [!export-db], which passes on
    what the adapter returned. *)
Record ToolResult : Type := {
  content : list JsValue;
  isError : bool
}.

Definition text_result (t : string) : ToolResult :=
  {| content := [JString t]; isError := false |}.

Definition error_result (t : string) : ToolResult :=
  {| content := [JString t]; isError := true |}.

(** [error instanceof Error ? error.message : 'Unknown error'].  Every
    exception of the model is an instance of [Error]. *)
Definition error_message (e : Exn) : string :=
  match e with
  | Error m | TypeError m | SyntaxError m | DriverError m => m
  end.

(** The module variable [dbService]: [null], or the adapter the last
    connection tool built. *)
Definition Session : Type := option DatabaseService.

(** A tool handler: it reads and may replace [dbService]. *)
Definition Tool : Type := Session -> Prog (ToolResult * Session).

(** [try { const r = await body; return ok(r); } catch (error) { ... }]
    on the adapter [dbService] points to: the adapter keeps the fields
    the method left, and an exception becomes an error result whose text
    is [prefix] followed by the message. *)
Fixpoint settle {A} (p : Prog (Completion A * DatabaseService))
    (ok : A -> ToolResult) (prefix : string) : Prog (ToolResult * Session) :=
  match p with
  | Done (Normal a, svc) => Done (ok a, Some svc)
  | Done (Abrupt e, svc) =>
      Done (error_result (prefix ++ error_message e), Some svc)
  | Await call k => Await call (fun r => settle (k r) ok prefix)
  end.

(** The three connection tools: [dbService] is assigned the new adapter
    before [connect] is awaited. *)
Definition tool_pg (args : DatabaseConnectionConfig) : Tool :=
  fun _ =>
    settle (connect (constructor {| type := "postgres"; connection := args |}))
      (fun _ => text_result "Successfully connected to PostgreSQL database!")
      "PostgreSQL connection error: ".

Definition tool_mysql (args : DatabaseConnectionConfig) : Tool :=
  fun _ =>
    settle (connect (constructor {| type := "mysql"; connection := args |}))
      (fun _ => text_result "Successfully connected to MySQL database!")
      "MySQL connection error: ".

Definition tool_firestore (args : DatabaseConnectionConfig) : Tool :=
  fun _ =>
    settle (connect (constructor {| type := "firestore"; connection := args |}))
      (fun _ => text_result "Successfully connected to Firestore database!")
      "Firestore connection error: ".

(** The opening of the six operation tools: [if (!dbService)], then the
    method inside [try]. *)
Definition guarded {A} (body : M A) (ok : A -> ToolResult) (prefix : string)
    : Tool :=
  fun dbService =>
    match dbService with
    | None => Done (error_result "You must connect to a database first!", None)
    | Some svc => settle (body svc) ok prefix
    end.

(** A [TableInfo] as the object it is. *)
Definition TableInfo_value (t : TableInfo) : JsValue :=
  JObject [ ("name", name t); ("columns", columns t) ].

Section Tools.

(** [JSON.stringify(value, null, 2)], which the shell applies to the
    listings; the tools are stated for whatever text it gives. *)
Variable JSON_stringify : JsValue -> string.

Definition tool_tables : Tool :=
  guarded getTables
    (fun tables => text_result (JSON_stringify (JArray (map TableInfo_value tables))))
    "Failed to get table information: ".

Definition tool_triggers : Tool :=
  guarded getTriggers
    (fun triggers => text_result (JSON_stringify (JArray (map JObject triggers))))
    "Failed to get trigger information: ".

Definition tool_functions : Tool :=
  guarded getFunctions
    (fun functions => text_result (JSON_stringify (JArray (map JObject functions))))
    "Failed to get function information: ".

Definition tool_query (query : string) : Tool :=
  guarded (executeQuery query)
    (fun results => text_result (JSON_stringify (JArray (map JObject results))))
    "Failed to execute query: ".

End Tools.

(** [!export-db]: the text of the schema is handed over as it is. *)
Definition tool_export_db (table : string) : Tool :=
  guarded (exportTableSchema table)
    (fun schema => {| content := [schema]; isError := false |})
    "Failed to export table schema: ".

Definition tool_export_data (table : string) : Tool :=
  guarded (exportTableData table) text_result "Failed to export table data: ".

(** ** Drivers and predicates used in the further properties *)

(** A call that closes a handle. *)
Definition closes_handle (c : AnyCall) : bool :=
  match c with
  | a_call (pg_end _) | a_call (mysql_end _) => true
  | a_call _ => false
  end.

(** The adapter is of a relational kind and holds the handle of that
    kind. *)
Definition relational_connected (this : DatabaseService) : Prop :=
  (type (config this) = "postgres" /\ exists c, postgresClient this = Some c)
  \/ (type (config this) = "mysql" /\ exists c, mysqlConnection this = Some c).

(** In the world [w], the driver rejects whatever it is asked with [e]. *)
Definition rejects_all {World} (driver : Driver World) (w : World) (e : Exn)
    (w' : World) : Prop :=
  forall X (call : DriverCall X), driver X call w = (Rejected e, w').

(** A driver that is down: every call is rejected with [e]. *)
Definition failing_driver (e : Exn) : Driver unit :=
  fun X call w => (Rejected e, w).

(** The tool runs the method on the adapter of the session and reports
    how it completed: the driver calls are those of the method, a
    returned value is shown by [ok], an exception becomes an error
    result with the text [prefix] followed by its message, and the
    session keeps the adapter. *)
Definition reports {A} (tool : Tool) (body : M A) (ok : A -> ToolResult)
    (prefix : string) : Prop :=
  forall (World : Type) (driver : Driver World) (svc : DatabaseService)
         (w : World),
    run driver (tool (Some svc)) w
    = (let '((c, svc'), w') := run driver (body svc) w in
       ((match c with
         | Normal a => ok a
         | Abrupt e => error_result (prefix ++ error_message e)
         end, Some svc'), w'))
    /\ trace driver (tool (Some svc)) w = trace driver (body svc) w.


(** In the world [w], the driver answers every query with [rows]. *)
Definition answers_rows {World} (driver : Driver World) (w : World)
    (rows : list Row) (w' : World) : Prop :=
  (forall c text values, driver _ (pg_query c text values) w = (Fulfilled rows, w'))
  /\ (forall c sql values, driver _ (mysql_query c sql values) w = (Fulfilled rows, w')).

(** Result sets used as examples in the further properties. *)
Definition show_create_rows : list Row :=
  [ [("Table", JString "users");
     ("Create Table", JString "CREATE TABLE `users` (`id` int)")] ].

Definition ragged_rows : list Row :=
  [ [("id", JNumber 1)]; [("id", JNumber 2); ("note", JString "x")] ].

Definition trimmed_rows : list Row :=
  [ [("id", JNumber 1)]; [("id", JNumber 2)] ].


(** * Properties *)

Ltac enter_method :=
  unfold connect, getTables, getTriggers, getFunctions, executeQuery,
    disconnect, exportTableSchema, exportTableData, bind, this_; simpl.

Ltac pick_kind H := rewrite H; simpl.

Lemma eqb_other (a b : string) : a <> b -> String.eqb a b = false.
Proof. intro H. now apply String.eqb_neq. Qed.

Ltac unknown_kind Hp Hm Hf :=
  enter_method;
  rewrite ?(eqb_other _ _ Hp), ?(eqb_other _ _ Hm), ?(eqb_other _ _ Hf);
  simpl.

(** ** The descent of [JSON.parse] and its fuel *)

Lemma skip_ws_length (s : string) :
  String.length (JSON.skip_ws s) <= String.length s.
Proof.
  induction s as [|c s IH]; simpl; [lia|].
  destruct (JSON.is_ws c); simpl; lia.
Qed.

Lemma expect_length (ch : ascii) (s r : string) :
  JSON.expect ch s = Some r -> String.length r < String.length s.
Proof.
  unfold JSON.expect. pose proof (skip_ws_length s) as Hs.
  destruct (JSON.skip_ws s) as [|c t]; [discriminate|].
  destruct (Ascii.eqb c ch); [|discriminate].
  intros [= <-]. simpl in Hs. lia.
Qed.

Lemma parse_chars_length (n : nat) :
  forall s t r,
    String.length s <= n ->
    JSON.parse_chars s = Some (t, r) -> String.length r < String.length s.
Proof.
  induction n as [|n IH]; intros s t r Hn H.
  - destruct s; [discriminate H | simpl in Hn; lia].
  - destruct s as [|c s]; [discriminate H|].
    simpl in Hn. cbn [JSON.parse_chars] in H.
    destruct (Ascii.eqb c JSON.DQUOTE).
    { injection H as _ <-. simpl. lia. }
    destruct (Ascii.eqb c JSON.BACKSLASH).
    + destruct s as [|e s1]; [discriminate H|].
      destruct (JSON.simple_escape e).
      * destruct (JSON.parse_chars s1) as [[t1 r1]|] eqn:H1; [|discriminate H].
        injection H as _ <-.
        apply IH in H1; simpl in *; lia.
      * destruct (Ascii.eqb e "u"); [|discriminate H].
        destruct s1 as [|h1 [|h2 [|h3 [|h4 r2]]]]; try discriminate H.
        destruct (JSON.hex4 h1 h2 h3 h4); [|discriminate H].
        destruct (JSON.parse_chars r2) as [[t1 r1]|] eqn:H1; [|discriminate H].
        injection H as _ <-.
        apply IH in H1; simpl in *; lia.
    + destruct (Nat.ltb (nat_of_ascii c) 32); [discriminate H|].
      destruct (JSON.parse_chars s) as [[t1 r1]|] eqn:H1; [|discriminate H].
      injection H as _ <-.
      apply IH in H1; simpl in *; lia.
Qed.

Lemma strip_prefix_length (p : string) :
  forall s r, strip_prefix p s = Some r -> String.length r <= String.length s.
Proof.
  induction p as [|a p IH]; intros s r H.
  - injection H as <-. lia.
  - destruct s as [|b s]; [discriminate H|].
    simpl in H. destruct (Ascii.eqb a b); [|discriminate H].
    apply IH in H. simpl. lia.
Qed.

Lemma span_digits_length (s : string) :
  String.length s
  = String.length (fst (span_digits s)) + String.length (snd (span_digits s)).
Proof.
  induction s as [|c s IH]; [reflexivity|].
  simpl. destruct (is_digit c); [|reflexivity].
  destruct (span_digits s) as [ds rest]. simpl in *. lia.
Qed.

Lemma parse_unsigned_length (s : string) (n : Z) (r : string) :
  JSON.parse_unsigned s = Some (n, r) -> String.length r < String.length s.
Proof.
  unfold JSON.parse_unsigned. pose proof (span_digits_length s) as Hs.
  destruct (span_digits s) as [ds rest]. simpl in Hs.
  destruct (JSON.leading_zero ds || JSON.starts_fraction rest); [discriminate|].
  destruct ds as [|d ds]; [discriminate|].
  destruct (digits_value (String d ds)); [|discriminate].
  intros [= _ <-]. simpl in Hs. lia.
Qed.

Lemma parse_number_length (s : string) (v : JsValue) (r : string) :
  JSON.parse_number s = Some (v, r) -> String.length r < String.length s.
Proof.
  unfold JSON.parse_number. destruct s as [|c s]; [discriminate|].
  destruct (Ascii.eqb c "-").
  - destruct (JSON.parse_unsigned s) as [[n r1]|] eqn:Hn; [|discriminate].
    intros [= _ <-]. apply parse_unsigned_length in Hn. simpl. lia.
  - destruct (JSON.parse_unsigned (String c s)) as [[n r1]|] eqn:Hn; [|discriminate].
    intros [= _ <-]. now apply parse_unsigned_length in Hn.
Qed.

Lemma parse_elements_S (fuel : nat) (s : string) :
  JSON.parse_elements (S fuel) s
  = match JSON.parse_value fuel s with
    | None => None
    | Some (v, r) =>
        match JSON.expect "," r with
        | Some r1 =>
            match JSON.parse_elements fuel r1 with
            | Some (vs, rest) => Some (v :: vs, rest)
            | None => None
            end
        | None =>
            match JSON.expect "]" r with
            | Some rest => Some ([v], rest)
            | None => None
            end
        end
    end.
Proof. reflexivity. Qed.

Lemma parse_value_S (fuel : nat) (s : string) :
  JSON.parse_value (S fuel) s
  = match JSON.skip_ws s with
    | EmptyString => None
    | String c r =>
        if Ascii.eqb c JSON.DQUOTE then
          match JSON.parse_chars r with
          | Some (t, rest) => Some (JString t, rest)
          | None => None
          end
        else if Ascii.eqb c "[" then
          match JSON.expect "]" r with
          | Some rest => Some (JArray [], rest)
          | None =>
              match JSON.parse_elements fuel r with
              | Some (vs, rest) => Some (JArray vs, rest)
              | None => None
              end
          end
        else if Ascii.eqb c "{" then
          match JSON.expect "}" r with
          | Some rest => Some (JObject [], rest)
          | None =>
              match JSON.parse_members fuel [] r with
              | Some (ps, rest) => Some (JObject ps, rest)
              | None => None
              end
          end
        else if Ascii.eqb c "t" then
          option_map (fun rest => (JBool true, rest)) (strip_prefix "rue" r)
        else if Ascii.eqb c "f" then
          option_map (fun rest => (JBool false, rest)) (strip_prefix "alse" r)
        else if Ascii.eqb c "n" then
          option_map (fun rest => (JNull, rest)) (strip_prefix "ull" r)
        else JSON.parse_number (String c r)
    end.
Proof. reflexivity. Qed.

Lemma parse_members_S (fuel : nat) (acc : Row) (s : string) :
  JSON.parse_members (S fuel) acc s
  = match JSON.expect JSON.DQUOTE s with
    | None => None
    | Some r =>
        match JSON.parse_chars r with
        | None => None
        | Some (key, r1) =>
            match JSON.expect ":" r1 with
            | None => None
            | Some r2 =>
                match JSON.parse_value fuel r2 with
                | None => None
                | Some (v, r3) =>
                    match JSON.expect "," r3 with
                    | Some r4 => JSON.parse_members fuel (JSON.set_prop acc key v) r4
                    | None =>
                        match JSON.expect "}" r3 with
                        | Some rest => Some (JSON.set_prop acc key v, rest)
                        | None => None
                        end
                    end
                end
            end
        end
    end.
Proof. reflexivity. Qed.

Ltac need_fuel f :=
  destruct f as [|f]; [exfalso; simpl in *; lia|].

Lemma parse_fuel_enough (fuel : nat) :
  fuel_enough JSON.parse_value fuel
  /\ fuel_enough JSON.parse_elements fuel
  /\ (forall acc, fuel_enough (fun f => JSON.parse_members f acc) fuel).
Proof.
  induction fuel as [|fuel (IHv & IHe & IHm)].
  { repeat split; intros; discriminate. }
  split; [|split].
  - intros s x r. rewrite parse_value_S.
    pose proof (skip_ws_length s) as Hws.
    destruct (JSON.skip_ws s) as [|c t] eqn:Hs; [discriminate|].
    simpl in Hws.
    destruct (Ascii.eqb c JSON.DQUOTE) eqn:Hq.
    { destruct (JSON.parse_chars t) as [[u r1]|] eqn:Hc; [|discriminate].
      intros [= <- <-].
      pose proof (parse_chars_length _ _ _ _ (le_n _) Hc) as Hlen.
      split; [lia|]. intros f Hf. need_fuel f.
      now rewrite parse_value_S, Hs, Hq, Hc. }
    destruct (Ascii.eqb c "[") eqn:Ha.
    { destruct (JSON.expect "]" t) as [r1|] eqn:Hx.
      - intros [= <- <-]. pose proof (expect_length _ _ _ Hx) as Hlen.
        split; [lia|]. intros f Hf. need_fuel f.
        now rewrite parse_value_S, Hs, Hq, Ha, Hx.
      - destruct (JSON.parse_elements fuel t) as [[vs r1]|] eqn:He; [|discriminate].
        intros [= <- <-]. destruct (IHe _ _ _ He) as [Hlen Hmore].
        split; [lia|]. intros f Hf. need_fuel f.
        rewrite parse_value_S, Hs, Hq, Ha, Hx, Hmore; [reflexivity | lia]. }
    destruct (Ascii.eqb c "{") eqn:Ho.
    { destruct (JSON.expect "}" t) as [r1|] eqn:Hx.
      - intros [= <- <-]. pose proof (expect_length _ _ _ Hx) as Hlen.
        split; [lia|]. intros f Hf. need_fuel f.
        now rewrite parse_value_S, Hs, Hq, Ha, Ho, Hx.
      - destruct (JSON.parse_members fuel [] t) as [[ps r1]|] eqn:He; [|discriminate].
        intros [= <- <-]. destruct (IHm _ _ _ _ He) as [Hlen Hmore].
        split; [lia|]. intros f Hf. need_fuel f.
        rewrite parse_value_S, Hs, Hq, Ha, Ho, Hx, Hmore; [reflexivity | lia]. }
    assert (Hleaf : forall y,
      y = Some (x, r) ->
      (forall r1, y = Some (x, r1) -> String.length r1 <= String.length t) ->
      (forall f, JSON.parse_value (S f) s = y) ->
      String.length r < String.length s
      /\ forall f, String.length s - String.length r <= f ->
                   JSON.parse_value f s = Some (x, r)).
    { intros y Hy Hlen Hsame. specialize (Hlen r Hy).
      split; [lia|]. intros f Hf. need_fuel f. now rewrite Hsame. }
    destruct (Ascii.eqb c "t") eqn:Ht.
    { intro H. apply (Hleaf _ H).
      - intros r1. destruct (strip_prefix "rue" t) as [r2|] eqn:Hp; [|discriminate].
        simpl. intros [= _ <-]. now apply strip_prefix_length in Hp.
      - intro f. now rewrite parse_value_S, Hs, Hq, Ha, Ho, Ht. }
    destruct (Ascii.eqb c "f") eqn:Hf.
    { intro H. apply (Hleaf _ H).
      - intros r1. destruct (strip_prefix "alse" t) as [r2|] eqn:Hp; [|discriminate].
        simpl. intros [= _ <-]. now apply strip_prefix_length in Hp.
      - intro f. now rewrite parse_value_S, Hs, Hq, Ha, Ho, Ht, Hf. }
    destruct (Ascii.eqb c "n") eqn:Hn.
    { intro H. apply (Hleaf _ H).
      - intros r1. destruct (strip_prefix "ull" t) as [r2|] eqn:Hp; [|discriminate].
        simpl. intros [= _ <-]. now apply strip_prefix_length in Hp.
      - intro f. now rewrite parse_value_S, Hs, Hq, Ha, Ho, Ht, Hf, Hn. }
    intro H. pose proof (parse_number_length _ _ _ H) as Hlen. simpl in Hlen.
    split; [lia|]. intros f Hfuel. need_fuel f.
    now rewrite parse_value_S, Hs, Hq, Ha, Ho, Ht, Hf, Hn.
  - intros s x r. rewrite parse_elements_S.
    destruct (JSON.parse_value fuel s) as [[v r1]|] eqn:Hv; [|discriminate].
    destruct (IHv _ _ _ Hv) as [Hlen1 Hmore1].
    destruct (JSON.expect "," r1) as [r2|] eqn:Hx.
    + pose proof (expect_length _ _ _ Hx) as Hlen2.
      destruct (JSON.parse_elements fuel r2) as [[vs r3]|] eqn:He; [|discriminate].
      intros [= <- <-]. destruct (IHe _ _ _ He) as [Hlen3 Hmore3].
      split; [lia|]. intros f Hf. need_fuel f.
      rewrite parse_elements_S, Hmore1, Hx, Hmore3; [reflexivity | lia | lia].
    + destruct (JSON.expect "]" r1) as [r2|] eqn:Hy; [|discriminate].
      pose proof (expect_length _ _ _ Hy) as Hlen2.
      intros [= <- <-].
      split; [lia|]. intros f Hf. need_fuel f.
      rewrite parse_elements_S, Hmore1, Hx, Hy; [reflexivity | lia].
  - intros acc s x r. cbv beta. rewrite parse_members_S.
    destruct (JSON.expect JSON.DQUOTE s) as [r0|] eqn:Hq; [|discriminate].
    pose proof (expect_length _ _ _ Hq) as Hlen0.
    destruct (JSON.parse_chars r0) as [[key r1]|] eqn:Hk; [|discriminate].
    pose proof (parse_chars_length _ _ _ _ (le_n _) Hk) as Hlen1.
    destruct (JSON.expect ":" r1) as [r2|] eqn:Hc; [|discriminate].
    pose proof (expect_length _ _ _ Hc) as Hlen2.
    destruct (JSON.parse_value fuel r2) as [[v r3]|] eqn:Hv; [|discriminate].
    destruct (IHv _ _ _ Hv) as [Hlen3 Hmore3].
    destruct (JSON.expect "," r3) as [r4|] eqn:Hx.
    + pose proof (expect_length _ _ _ Hx) as Hlen4.
      intro He. destruct (IHm _ _ _ _ He) as [Hlen5 Hmore5].
      split; [lia|]. intros f Hf. need_fuel f.
      rewrite parse_members_S, Hq, Hk, Hc, Hmore3, Hx by lia.
      apply Hmore5. lia.
    + destruct (JSON.expect "}" r3) as [r4|] eqn:Hy; [|discriminate].
      pose proof (expect_length _ _ _ Hy) as Hlen4.
      intros [= <- <-].
      split; [lia|]. intros f Hf. need_fuel f.
      rewrite parse_members_S, Hq, Hk, Hc, Hmore3, Hx, Hy; [reflexivity | lia].
Qed.

(** The fuel [JSON.parse] gives itself is enough: whenever the descent
    reads a value with some fuel, it reads it with the length of the
    text. *)
Lemma parse_value_fuel (fuel : nat) (s : string) (v : JsValue) (r : string) :
  JSON.parse_value fuel s = Some (v, r) ->
  JSON.parse_value (String.length s) s = Some (v, r).
Proof.
  intro H. destruct (parse_fuel_enough fuel) as (Hv & _ & _).
  destruct (Hv _ _ _ H) as [_ Hmore]. apply Hmore. lia.
Qed.

(** ** The document store has no SQL *)

(** C3. On an adapter of the document-store kind ("firestore"), whatever
    its fields hold, [executeQuery], [exportTableSchema] and
    [exportTableData] each end at once with the "not supported for
    Firestore" error: the computation is a bare [Done], the fields are
    left as they were, and against any driver the trace of driver calls
    is empty. *)
Theorem firestore_sql_operations_unsupported {World} (driver : Driver World)
    (w : World) (this : DatabaseService) (arg : string)
    (Hkind : type (config this) = "firestore") :
  (executeQuery arg this
     = Done (Abrupt (Error "SQL queries are not supported for Firestore"), this)
   /\ exportTableSchema arg this
     = Done (Abrupt (Error "SQL schema export is not supported for Firestore"), this)
   /\ exportTableData arg this
     = Done (Abrupt (Error "SQL data export is not supported for Firestore"), this))
  /\ (trace driver (executeQuery arg this) w = []
      /\ trace driver (exportTableSchema arg this) w = []
      /\ trace driver (exportTableData arg this) w = []).
Proof.
  repeat split; enter_method; pick_kind Hkind; reflexivity.
Qed.

Lemma firestore_sql_operations_unsupported_witness :
  type (config (constructor firestore_config)) = "firestore"
  /\ executeQuery "SELECT 1" (constructor firestore_config)
     = Done (Abrupt (Error "SQL queries are not supported for Firestore"),
             constructor firestore_config)
  /\ trace (canned_driver [] []) (executeQuery "SELECT 1" (constructor firestore_config)) tt
     = [].
Proof.
  split; [reflexivity|].
  destruct (firestore_sql_operations_unsupported (canned_driver [] []) tt
              (constructor firestore_config) "SELECT 1" eq_refl)
    as [(Hquery & _ & _) (Htrace & _ & _)].
  split; [exact Hquery | exact Htrace].
Defined.

(** The same right after [connect], which for this kind builds the
    client without calling the driver. *)
Lemma firestore_connect_then_sql (this : DatabaseService) (arg : string)
    (Hkind : type (config this) = "firestore") :
  let connected :=
    {| postgresClient := postgresClient this;
       mysqlConnection := mysqlConnection this;
       firestoreClient := Some {| fs_settings := connection (config this) |};
       config := config this |} in
  (connect ;;; executeQuery arg) this
    = Done (Abrupt (Error "SQL queries are not supported for Firestore"), connected)
  /\ (connect ;;; exportTableSchema arg) this
    = Done (Abrupt (Error "SQL schema export is not supported for Firestore"),
            connected)
  /\ (connect ;;; exportTableData arg) this
    = Done (Abrupt (Error "SQL data export is not supported for Firestore"),
            connected).
Proof.
  repeat split; enter_method; unfold set_firestoreClient;
    pick_kind Hkind; rewrite Hkind; reflexivity.
Qed.

(** [connect] never touches [config], so the kind an adapter was built
    with is the kind every later call sees. *)
Lemma connect_keeps_config {World} (driver : Driver World)
    (this : DatabaseService) (w : World) :
  config (snd (fst (run driver (connect this) w))) = config this.
Proof.
  enter_method.
  destruct (String.eqb (type (config this)) "postgres").
  - simpl. destruct (driver unit _ w) as [[[]|e] w1]; reflexivity.
  - destruct (String.eqb (type (config this)) "mysql").
    + simpl. destruct (driver MysqlConnection _ w) as [[c|e] w1]; reflexivity.
    + destruct (String.eqb (type (config this)) "firestore"); reflexivity.
Qed.

(** ** Triggers and functions of the document store *)

(** C8. On an adapter of the document-store kind, [getTriggers] and
    [getFunctions] return the empty sequence, with or without a handle:
    they complete normally at once, without any driver call. *)
Theorem firestore_triggers_functions_empty (this : DatabaseService)
    (Hkind : type (config this) = "firestore") :
  getTriggers this = Done (Normal [], this)
  /\ getFunctions this = Done (Normal [], this).
Proof.
  split; enter_method; pick_kind Hkind; reflexivity.
Qed.

Lemma firestore_triggers_functions_empty_witness :
  type (config (constructor firestore_config)) = "firestore"
  /\ getTriggers (constructor firestore_config)
     = Done (Normal [], constructor firestore_config)
  /\ getFunctions (constructor firestore_config)
     = Done (Normal [], constructor firestore_config).
Proof.
  split.
  - reflexivity.
  - apply (firestore_triggers_functions_empty (constructor firestore_config)).
    reflexivity.
Defined.

(** ** Kinds outside the three recognized ones *)

(** C10. When [config.type] is none of "postgres", "mysql", "firestore":
    [getTables], [getTriggers] and [getFunctions] return the empty
    sequence; [executeQuery], [exportTableSchema] and [exportTableData]
    throw [Error('Unsupported database type')]; [disconnect] completes
    doing nothing.  None of them calls a driver or changes a field. *)
Theorem unknown_kind_operations (this : DatabaseService) (arg : string)
    (Hp : type (config this) <> "postgres")
    (Hm : type (config this) <> "mysql")
    (Hf : type (config this) <> "firestore") :
  getTables this = Done (Normal [], this)
  /\ getTriggers this = Done (Normal [], this)
  /\ getFunctions this = Done (Normal [], this)
  /\ executeQuery arg this
     = Done (Abrupt (Error "Unsupported database type"), this)
  /\ exportTableSchema arg this
     = Done (Abrupt (Error "Unsupported database type"), this)
  /\ exportTableData arg this
     = Done (Abrupt (Error "Unsupported database type"), this)
  /\ disconnect this = Done (Normal tt, this).
Proof.
  repeat split; unknown_kind Hp Hm Hf; reflexivity.
Qed.

Lemma unknown_kind_operations_witness :
  type (config (constructor sqlite_config)) <> "postgres"
  /\ type (config (constructor sqlite_config)) <> "mysql"
  /\ type (config (constructor sqlite_config)) <> "firestore"
  /\ getTables (constructor sqlite_config)
     = Done (Normal [], constructor sqlite_config)
  /\ executeQuery "SELECT 1" (constructor sqlite_config)
     = Done (Abrupt (Error "Unsupported database type"),
             constructor sqlite_config)
  /\ disconnect (constructor sqlite_config)
     = Done (Normal tt, constructor sqlite_config).
Proof.
  assert (Hp : type (config (constructor sqlite_config)) <> "postgres")
    by (simpl; discriminate).
  assert (Hm : type (config (constructor sqlite_config)) <> "mysql")
    by (simpl; discriminate).
  assert (Hf : type (config (constructor sqlite_config)) <> "firestore")
    by (simpl; discriminate).
  pose proof (unknown_kind_operations (constructor sqlite_config) "SELECT 1"
                Hp Hm Hf) as (Ht & _ & _ & Hq & _ & _ & Hd).
  split; [exact Hp|].
  split; [exact Hm|].
  split; [exact Hf|].
  split; [exact Ht|].
  split; [exact Hq|exact Hd].
Defined.

(** C2, as the code has it.  When [config.type] is none of the three
    recognized kinds, [connect] falls through its [switch]: it completes
    normally, calls no driver and leaves every field as it was, so no
    handle is created and nothing is reported. *)
Theorem connect_unknown_kind_is_silent (this : DatabaseService)
    (Hp : type (config this) <> "postgres")
    (Hm : type (config this) <> "mysql")
    (Hf : type (config this) <> "firestore") :
  connect this = Done (Normal tt, this).
Proof.
  unknown_kind Hp Hm Hf; reflexivity.
Qed.

Lemma connect_unknown_kind_is_silent_witness :
  type (config (constructor sqlite_config)) <> "postgres"
  /\ type (config (constructor sqlite_config)) <> "mysql"
  /\ type (config (constructor sqlite_config)) <> "firestore"
  /\ connect (constructor sqlite_config)
     = Done (Normal tt, constructor sqlite_config).
Proof.
  split; [simpl; discriminate|].
  split; [simpl; discriminate|].
  split; [simpl; discriminate|].
  apply (connect_unknown_kind_is_silent (constructor sqlite_config));
    simpl; discriminate.
Defined.

(** C2 as stated does not hold: for the kind "sqlite", [connect] does
    not fail, it returns, and the adapter still has no handle. *)
Lemma connect_unknown_kind_does_not_fail :
  ~ recognized (type sqlite_config)
  /\ connect (constructor sqlite_config)
     = Done (Normal tt, constructor sqlite_config)
  /\ ~ fails_with (fun _ => True) (connect (constructor sqlite_config))
  /\ postgresClient (constructor sqlite_config) = None
  /\ mysqlConnection (constructor sqlite_config) = None
  /\ firestoreClient (constructor sqlite_config) = None.
Proof.
  repeat split.
  - intros [H | [H | H]]; discriminate H.
  - intros (e & that & H & _). discriminate H.
Qed.

(** ** Calling a method before [connect] *)

Lemma NotConnected_not_NullReference (e : Exn) :
  NotConnected e -> ~ NullReference e.
Proof.
  intros [-> | ->] [message H]; discriminate H.
Qed.

(** C1, as the code has it.  On an adapter that holds no handle:
    for the two relational kinds, [executeQuery], [exportTableSchema]
    and [exportTableData] stop at their guard with the explicit
    "connection not found" error and call no driver; for the
    document-store kind these three throw the "not supported for
    Firestore" error and [getTriggers], [getFunctions] return the empty
    sequence.  (The catalog listings that dereference the handle
    unguarded are left out of this statement.) *)
Theorem operations_without_handle (this : DatabaseService) (arg : string)
    (Hpg : postgresClient this = None)
    (Hmy : mysqlConnection this = None) :
  (type (config this) = "postgres" ->
     executeQuery arg this
       = Done (Abrupt (Error "PostgreSQL connection not found"), this)
     /\ exportTableSchema arg this
       = Done (Abrupt (Error "PostgreSQL connection not found"), this)
     /\ exportTableData arg this
       = Done (Abrupt (Error "PostgreSQL connection not found"), this))
  /\ (type (config this) = "mysql" ->
     executeQuery arg this
       = Done (Abrupt (Error "MySQL connection not found"), this)
     /\ exportTableSchema arg this
       = Done (Abrupt (Error "MySQL connection not found"), this)
     /\ exportTableData arg this
       = Done (Abrupt (Error "MySQL connection not found"), this))
  /\ (type (config this) = "firestore" ->
     executeQuery arg this
       = Done (Abrupt (Error "SQL queries are not supported for Firestore"), this)
     /\ exportTableSchema arg this
       = Done (Abrupt (Error "SQL schema export is not supported for Firestore"), this)
     /\ exportTableData arg this
       = Done (Abrupt (Error "SQL data export is not supported for Firestore"), this)
     /\ getTriggers this = Done (Normal [], this)
     /\ getFunctions this = Done (Normal [], this)).
Proof.
  split; [|split]; intro Hkind; repeat split;
    enter_method; pick_kind Hkind; rewrite ?Hpg, ?Hmy; reflexivity.
Qed.

Lemma operations_without_handle_witness :
  postgresClient (constructor postgres_config) = None
  /\ mysqlConnection (constructor postgres_config) = None
  /\ fails_with NotConnected
       (exportTableData "users" (constructor postgres_config)).
Proof.
  split; [reflexivity|].
  split; [reflexivity|].
  destruct (operations_without_handle (constructor postgres_config) "users"
              eq_refl eq_refl) as (Hpostgres & _ & _).
  destruct (Hpostgres eq_refl) as (_ & _ & Hdata).
  exists (Error "PostgreSQL connection not found"), (constructor postgres_config).
  split; [exact Hdata | left; reflexivity].
Defined.

(** C1 as stated does not hold.  Before [connect], on the
    document-store kind [getTriggers] succeeds with the empty sequence
    and [executeQuery] reports the unsupported operation, not a missing
    connection; on the relational-A kind [getTables] reads [query] off
    the [undefined] client, which is the null-reference fault. *)
Lemma operations_before_connect_counterexample :
  getTriggers (constructor firestore_config)
    = Done (Normal [], constructor firestore_config)
  /\ ~ fails_with NotConnected (getTriggers (constructor firestore_config))
  /\ ~ fails_with NotConnected
         (executeQuery "SELECT 1" (constructor firestore_config))
  /\ getTables (constructor postgres_config)
     = Done (Abrupt (TypeError
                 "Cannot read properties of undefined (reading 'query')"),
             constructor postgres_config)
  /\ fails_with NullReference (getTables (constructor postgres_config))
  /\ ~ fails_with NotConnected (getTables (constructor postgres_config)).
Proof.
  split; [reflexivity|].
  split; [intros (e & that & H & _); discriminate H|].
  split.
  { intros (e & that & H & [-> | ->]); discriminate H. }
  split; [reflexivity|].
  split.
  { exists (TypeError "Cannot read properties of undefined (reading 'query')"),
      (constructor postgres_config).
    split; [reflexivity | eexists; reflexivity]. }
  intros (e & that & H & [-> | ->]); discriminate H.
Qed.

(** ** Listing the collections of the document store *)

Lemma collection_descriptors_empty (collections : list CollectionReference) :
  Forall (fun t => columns t = JArray []) (map collection_descriptor collections).
Proof.
  induction collections as [|c rest IH]; simpl; constructor; auto.
Qed.

(** C9. On an adapter of the document-store kind: when the client
    exists and the driver answers the listing with [collections],
    [getTables] returns one descriptor per collection, in that order,
    named by the collection's [id] and with [columns] the empty array;
    and whenever [getTables] returns at all, what it returns is of that
    form, so no entry has a column. *)
Theorem firestore_tables_have_no_columns {World} (driver : Driver World)
    (this : DatabaseService) (w : World)
    (Hkind : type (config this) = "firestore") :
  (forall c collections w',
      firestoreClient this = Some c ->
      driver _ (firestore_listCollections c) w = (Fulfilled collections, w') ->
      run driver (getTables this) w
        = ((Normal (map collection_descriptor collections), this), w'))
  /\ (forall tables that w',
      run driver (getTables this) w = ((Normal tables, that), w') ->
      (exists c collections,
          firestoreClient this = Some c
          /\ driver _ (firestore_listCollections c) w = (Fulfilled collections, w')
          /\ tables = map collection_descriptor collections)
      /\ Forall (fun t => columns t = JArray []) tables).
Proof.
  split.
  - intros c collections w' Hc Hlist.
    enter_method. pick_kind Hkind. rewrite Hc. simpl.
    rewrite Hlist. reflexivity.
  - intros tables that w'.
    enter_method. pick_kind Hkind.
    destruct (firestoreClient this) as [c|] eqn:Hc; simpl.
    + destruct (driver _ (firestore_listCollections c) w)
        as [[collections|e] w1] eqn:Hlist; simpl; intro H.
      * injection H as <- <- <-.
        split; [|apply collection_descriptors_empty].
        exists c, collections.
        split; [reflexivity|]. split; [exact Hlist | reflexivity].
      * discriminate H.
    + intro H. discriminate H.
Qed.

Lemma firestore_tables_have_no_columns_witness :
  type (config firestore_connected) = "firestore"
  /\ run (canned_driver [] [ {| id := "users" |}; {| id := "orders" |} ])
         (getTables firestore_connected) tt
     = ((Normal [ {| name := JString "users"; columns := JArray [] |};
                  {| name := JString "orders"; columns := JArray [] |} ],
         firestore_connected), tt).
Proof.
  split; [reflexivity|].
  destruct (firestore_tables_have_no_columns
              (canned_driver [] [ {| id := "users" |}; {| id := "orders" |} ])
              firestore_connected tt eq_refl) as [Hret _].
  apply (Hret {| fs_settings := no_parameters |}
              [ {| id := "users" |}; {| id := "orders" |} ] tt);
    reflexivity.
Defined.

(** ** The relational exports *)

Section RelationalExport.

Context {World : Type}.
Variable driver : Driver World.

Lemma exportTableData_on_rows (this : DatabaseService) (tableName : string)
    (w w' : World) (rows : list Row) :
  select_returns driver this tableName w rows w' ->
  run driver (exportTableData tableName this) w
    = ((Normal (insert_statements tableName rows), this), w').
Proof.
  intros [(Hkind & c & Hc & Hsel) | (Hkind & c & Hc & Hsel)];
    enter_method; pick_kind Hkind; rewrite Hc; simpl in Hsel |- *;
    rewrite Hsel; reflexivity.
Qed.

Lemma exportTableSchema_on_rows (this : DatabaseService) (tableName : string)
    (w w' : World) (rows : list Row) :
  schema_query_returns driver this tableName w rows w' ->
  run driver (exportTableSchema tableName this) w
    = ((Normal (js_or (first_row_prop rows
                         (if String.eqb (type (config this)) "postgres"
                          then "create_table_sql" else "Create Table"))
                      (JString "")), this), w').
Proof.
  intros [(Hkind & c & Hc & Hsel) | (Hkind & c & Hc & Hsel)];
    enter_method; pick_kind Hkind; rewrite Hc; simpl in Hsel |- *;
    rewrite Hsel; reflexivity.
Qed.

Lemma exportTableSchema_on_rejection (this : DatabaseService)
    (tableName : string) (w w' : World) (e : Exn) :
  schema_query_rejected driver this tableName w e w' ->
  run driver (exportTableSchema tableName this) w = ((Abrupt e, this), w').
Proof.
  intros [(Hkind & c & Hc & Hsel) | (Hkind & c & Hc & Hsel)];
    enter_method; pick_kind Hkind; rewrite Hc; simpl in Hsel |- *;
    rewrite Hsel; reflexivity.
Qed.

(** C6, as the code has it.  On a connected relational adapter: when
    the select on the table returns no row, [exportTableData] returns
    the empty string (and no statement at all); when the statement that
    [exportTableSchema] sends for the table is answered with no row,
    which is how the catalog of relational-A shows a table without
    columns or a table that does not exist, [exportTableSchema] returns
    the empty string; and when the server rejects that statement, as
    relational-B does for a table that does not exist,
    [exportTableSchema] throws the rejection as it is. *)
Theorem export_of_nothing_is_empty (this : DatabaseService)
    (tableName : string) (w w' : World) :
  (select_returns driver this tableName w [] w' ->
     run driver (exportTableData tableName this) w = ((Normal "", this), w'))
  /\ (schema_query_returns driver this tableName w [] w' ->
     run driver (exportTableSchema tableName this) w
       = ((Normal (JString ""), this), w'))
  /\ (forall e : Exn,
       schema_query_rejected driver this tableName w e w' ->
       run driver (exportTableSchema tableName this) w = ((Abrupt e, this), w')).
Proof.
  split; [|split]; [intro H | intro H | intros e H].
  - rewrite (exportTableData_on_rows _ _ _ _ _ H). reflexivity.
  - rewrite (exportTableSchema_on_rows _ _ _ _ _ H). reflexivity.
  - now apply exportTableSchema_on_rejection.
Qed.

End RelationalExport.

Lemma select_returns_canned_postgres (rows : list Row) (tableName : string) :
  select_returns (canned_driver rows []) postgres_connected tableName tt rows tt.
Proof.
  left. split; [reflexivity|].
  exists {| pg_options := no_parameters |}. split; reflexivity.
Defined.

Lemma select_returns_canned_mysql (rows : list Row) (tableName : string) :
  select_returns (canned_driver rows []) mysql_connected tableName tt rows tt.
Proof.
  right. split; [reflexivity|].
  exists {| threadId := 1 |}. split; reflexivity.
Defined.

Lemma schema_query_returns_canned_mysql (rows : list Row) (tableName : string) :
  schema_query_returns (canned_driver rows []) mysql_connected tableName tt rows tt.
Proof.
  right. split; [reflexivity|].
  exists {| threadId := 1 |}. split; reflexivity.
Defined.

Lemma schema_query_returns_canned_postgres (rows : list Row) (tableName : string) :
  schema_query_returns (canned_driver rows []) postgres_connected tableName tt rows tt.
Proof.
  left. split; [reflexivity|].
  exists {| pg_options := no_parameters |}. split; reflexivity.
Defined.

Lemma schema_query_rejected_failing_mysql (e : Exn) (tableName : string) :
  schema_query_rejected (failing_driver e) mysql_connected tableName tt e tt.
Proof.
  right. split; [reflexivity|].
  exists {| threadId := 1 |}. split; reflexivity.
Defined.

Lemma export_of_nothing_is_empty_witness :
  select_returns (canned_driver [] []) mysql_connected "users" tt [] tt
  /\ run (canned_driver [] []) (exportTableData "users" mysql_connected) tt
     = ((Normal "", mysql_connected), tt)
  /\ schema_query_returns (canned_driver [] []) postgres_connected "users" tt [] tt
  /\ run (canned_driver [] []) (exportTableSchema "users" postgres_connected) tt
     = ((Normal (JString ""), postgres_connected), tt)
  /\ schema_query_rejected (failing_driver no_such_table) mysql_connected "users"
       tt no_such_table tt
  /\ run (failing_driver no_such_table) (exportTableSchema "users" mysql_connected) tt
     = ((Abrupt no_such_table, mysql_connected), tt).
Proof.
  split; [apply select_returns_canned_mysql|].
  split.
  { apply (proj1 (export_of_nothing_is_empty (canned_driver [] [])
                    mysql_connected "users" tt tt)).
    apply select_returns_canned_mysql. }
  split; [apply schema_query_returns_canned_postgres|].
  split.
  { apply (proj1 (proj2 (export_of_nothing_is_empty (canned_driver [] [])
                           postgres_connected "users" tt tt))).
    apply schema_query_returns_canned_postgres. }
  split; [apply schema_query_rejected_failing_mysql|].
  apply (proj2 (proj2 (export_of_nothing_is_empty (failing_driver no_such_table)
                         mysql_connected "users" tt tt))).
  apply schema_query_rejected_failing_mysql.
Defined.

(** C6 as stated does not hold on relational-B for a table that does not
    exist: the server has no row to answer [SHOW CREATE TABLE] with, it
    rejects the statement, and [exportTableSchema], which catches
    nothing, throws that rejection instead of returning the empty
    string. *)
Lemma exportTableSchema_unknown_table_counterexample :
  trace (failing_driver no_such_table) (exportTableSchema "users" mysql_connected) tt
  = [a_call (mysql_query {| threadId := 1 |} "SHOW CREATE TABLE ??" [JString "users"])]
  /\ run (failing_driver no_such_table) (exportTableSchema "users" mysql_connected) tt
     = ((Abrupt (DriverError "Table 'shop.users' doesn't exist"), mysql_connected), tt)
  /\ run (failing_driver no_such_table) (exportTableSchema "users" mysql_connected) tt
     <> ((Normal (JString ""), mysql_connected), tt).
Proof.
  split; [reflexivity|].
  split; [reflexivity | discriminate].
Qed.

(** ** The statements of [exportTableData] *)





Lemma replace_quotes_app (a b : string) :
  replace_quotes (a ++ b) = replace_quotes a ++ replace_quotes b.
Proof.
  induction a as [|c a IH]; simpl; [reflexivity|].
  destruct (Ascii.eqb c "'"); simpl; now rewrite IH.
Qed.







(** The scenario of the specification, on both relational kinds, and
    the quoting of a string. *)
Example users_export_postgres :
  run (canned_driver users_rows []) (exportTableData "users" postgres_connected) tt
  = ((Normal "INSERT INTO users (id, name) VALUES (1, NULL);",
      postgres_connected), tt).
Proof. reflexivity. Qed.

Example users_export_mysql :
  run (canned_driver users_rows []) (exportTableData "users" mysql_connected) tt
  = ((Normal "INSERT INTO users (id, name) VALUES (1, NULL);",
      mysql_connected), tt).
Proof. reflexivity. Qed.

Example obrien_literal :
  format_cell (JString "O'Brien") = JString "'O''Brien'"
  /\ formatted_value (JString "O'Brien") = "'O''Brien'".
Proof. split; reflexivity. Qed.

(** ** Reading the export back *)

Lemma append_assoc (a b c : string) : (a ++ b) ++ c = a ++ (b ++ c).
Proof.
  induction a as [|x a IH]; simpl; [reflexivity | now rewrite IH].
Qed.

Lemma length_append (a b : string) :
  String.length (a ++ b) = String.length a + String.length b.
Proof.
  induction a as [|x a IH]; simpl; [reflexivity | now rewrite IH].
Qed.















Lemma concat_cons2 (sep x y : string) (l : list string) :
  String.concat sep (x :: y :: l) = x ++ sep ++ String.concat sep (y :: l).
Proof. reflexivity. Qed.





Lemma read_script_S (fuel : nat) (tableName : string) (columns : list string)
    (s : string) :
  ExportReader.read_script (S fuel) tableName columns s
  = match ExportReader.read_statement tableName columns s with
    | None => None
    | Some (row, rest) =>
        match rest with
        | EmptyString => Some [row]
        | String c r =>
            if Ascii.eqb c (ascii_of_nat 10) then
              match ExportReader.read_script fuel tableName columns r with
              | Some rows => Some (row :: rows)
              | None => None
              end
            else None
        end
    end.
Proof. reflexivity. Qed.


Lemma concat_length_scaled (k : nat) (sep : string) (l : list string) :
  Forall (fun s => k <= String.length s) l ->
  k * length l <= String.length (String.concat sep l).
Proof.
  induction 1 as [|s l Hs _ IH]; [simpl; lia|].
  destruct l as [|s1 l].
  - simpl. lia.
  - rewrite concat_cons2, !length_append.
    change (Datatypes.length (s :: s1 :: l)) with (S (Datatypes.length (s1 :: l))).
    lia.
Qed.







Example obrien_export :
  insert_statements "users" obrien_rows
  = "INSERT INTO users (id, name) VALUES (1, 'O''Brien');" ++ String NEWLINE
    ("INSERT INTO users (id, name) VALUES (-2, NULL);" ++ String NEWLINE
     "INSERT INTO users (id, name) VALUES (true, '');").
Proof. reflexivity. Qed.


(** ** The fuel of the reader *)

Lemma read_quoted_length (n : nat) :
  forall s t r,
    String.length s <= n ->
    ExportReader.read_quoted s = Some (t, r) -> String.length r <= String.length s.
Proof.
  induction n as [|n IH]; intros s t r Hn H.
  - destruct s; [discriminate H | simpl in Hn; lia].
  - destruct s as [|c s]; [discriminate H|].
    simpl in Hn. cbn [ExportReader.read_quoted] in H.
    destruct (Ascii.eqb c "'").
    + destruct s as [|c1 s1]; [injection H as _ <-; simpl; lia|].
      destruct (Ascii.eqb c1 "'").
      * destruct (ExportReader.read_quoted s1) as [[t1 r1]|] eqn:H1; [|discriminate H].
        injection H as _ <-. apply IH in H1; simpl in *; lia.
      * injection H as _ <-. simpl. lia.
    + destruct (ExportReader.read_quoted s) as [[t1 r1]|] eqn:H1; [|discriminate H].
      injection H as _ <-. apply IH in H1; simpl in *; lia.
Qed.

Lemma read_digits_length (s : string) (n : Z) (r : string) :
  ExportReader.read_digits s = Some (n, r) -> String.length r <= String.length s.
Proof.
  unfold ExportReader.read_digits. pose proof (span_digits_length s) as Hs.
  destruct (span_digits s) as [ds rest]. simpl in Hs.
  destruct ds as [|d ds]; [discriminate|].
  destruct (digits_value (String d ds)); [|discriminate].
  intros [= _ <-]. lia.
Qed.

Lemma read_integer_length (s : string) (n : Z) (r : string) :
  ExportReader.read_integer s = Some (n, r) -> String.length r <= String.length s.
Proof.
  intro H.
  assert (Hcases :
    (exists m, ExportReader.read_digits s = Some (m, r))
    \/ (exists t m, s = String "-" t /\ ExportReader.read_digits t = Some (m, r))).
  { destruct s as [|c s]; [discriminate H|].
    destruct (Ascii.eqb_spec c "-") as [->|Hc].
    - right. exists s. simpl in H.
      destruct (ExportReader.read_digits s) as [[m r1]|]; [|discriminate H].
      injection H as _ <-. now exists m.
    - left. exists n.
      destruct c as [[|] [|] [|] [|] [|] [|] [|] [|]]; try exact H.
      now elim Hc. }
  destruct Hcases as [[m Hm] | (t & m & -> & Hm)];
    apply read_digits_length in Hm; simpl; lia.
Qed.

Lemma read_literal_length (s : string) (v : JsValue) (r : string) :
  ExportReader.read_literal s = Some (v, r) -> String.length r <= String.length s.
Proof.
  destruct s as [|c s]; [discriminate|].
  unfold ExportReader.read_literal.
  destruct (Ascii.eqb c "'").
  { destruct (ExportReader.read_quoted s) as [[t r1]|] eqn:Hq; [|discriminate].
    intros [= _ <-].
    pose proof (read_quoted_length _ _ _ _ (le_n _) Hq). simpl. lia. }
  destruct (is_digit c || Ascii.eqb c "-").
  { destruct (ExportReader.read_integer (String c s)) as [[n r1]|] eqn:Hi; [|discriminate].
    intros [= _ <-]. now apply read_integer_length in Hi. }
  intro H.
  assert (Hword : exists p, strip_prefix p s = Some r).
  { destruct c as [[|] [|] [|] [|] [|] [|] [|] [|]]; try discriminate H;
      match type of H with
      | option_map _ (strip_prefix ?p s) = _ =>
          exists p; destruct (strip_prefix p s); [|discriminate H];
          injection H as _ <-; reflexivity
      end. }
  destruct Hword as [p Hp]. apply strip_prefix_length in Hp. simpl. lia.
Qed.

Lemma read_values_length (columns : list string) :
  forall s vs r,
    ExportReader.read_values columns s = Some (vs, r) ->
    String.length r <= String.length s.
Proof.
  induction columns as [|col columns IH]; intros s vs r H.
  - injection H as _ <-. lia.
  - cbn [ExportReader.read_values] in H.
    destruct (ExportReader.read_literal s) as [[v r1]|] eqn:Hl; [|discriminate H].
    apply read_literal_length in Hl.
    destruct columns as [|col1 columns].
    + injection H as _ <-. exact Hl.
    + destruct (strip_prefix ", " r1) as [r2|] eqn:Hp; [|discriminate H].
      apply strip_prefix_length in Hp.
      destruct (ExportReader.read_values (col1 :: columns) r2) as [[vs1 r3]|] eqn:Hv;
        [|discriminate H].
      injection H as _ <-. apply IH in Hv. lia.
Qed.

Lemma read_statement_length (tableName : string) (columns : list string)
    (s : string) (row : Row) (r : string) :
  ExportReader.read_statement tableName columns s = Some (row, r) ->
  String.length r < String.length s.
Proof.
  unfold ExportReader.read_statement.
  set (header := "INSERT INTO " ++ tableName ++ " ("
                   ++ String.concat ", " columns ++ ") VALUES (").
  assert (Hheader : exists p, header = String "I" p) by (eexists; reflexivity).
  destruct Hheader as [p Hheader]. clearbody header. subst header.
  destruct (strip_prefix (String "I" p) s) as [r1|] eqn:Hp; [|discriminate].
  assert (Hlen : String.length r1 < String.length s).
  { destruct s as [|c s]; [discriminate Hp|].
    cbn [strip_prefix] in Hp. destruct (Ascii.eqb "I" c); [|discriminate Hp].
    apply strip_prefix_length in Hp. simpl. lia. }
  destruct (ExportReader.read_values columns r1) as [[vs r2]|] eqn:Hv; [|discriminate].
  apply read_values_length in Hv.
  destruct (strip_prefix ");" r2) as [r3|] eqn:Hc; [|discriminate].
  apply strip_prefix_length in Hc.
  intros [= _ <-]. lia.
Qed.

(** The fuel [read_export] gives itself is enough: a script that is read
    with some fuel is read with the length of its text. *)
Lemma read_script_fuel (tableName : string) (columns : list string)
    (fuel : nat) :
  forall s rows,
    ExportReader.read_script fuel tableName columns s = Some rows ->
    forall fuel', String.length s <= fuel' ->
      ExportReader.read_script fuel' tableName columns s = Some rows.
Proof.
  induction fuel as [|fuel IH]; intros s rows H fuel' Hfuel; [discriminate H|].
  rewrite read_script_S in H.
  destruct (ExportReader.read_statement tableName columns s) as [[row r]|] eqn:Hst;
    [|discriminate H].
  pose proof (read_statement_length _ _ _ _ _ Hst) as Hlen.
  destruct fuel' as [|fuel']; [lia|].
  rewrite read_script_S, Hst.
  destruct r as [|c r]; [exact H|].
  destruct (Ascii.eqb c (ascii_of_nat 10)); [|exact H].
  destruct (ExportReader.read_script fuel tableName columns r) as [rows1|] eqn:Hr;
    [|discriminate H].
  rewrite (IH _ _ Hr); [exact H | simpl in Hlen; lia].
Qed.

(** ** The two relational listings of tables *)

Lemma parse_chars_escape_char (c : ascii) (r : string) :
  JSON.parse_chars (json_escape_char c ++ r)
  = match JSON.parse_chars r with
    | Some (t, rest) => Some (String c t, rest)
    | None => None
    end.
Proof.
  destruct c as [[|] [|] [|] [|] [|] [|] [|] [|]]; reflexivity.
Qed.

Lemma parse_chars_escape (s rest : string) :
  JSON.parse_chars (json_escape s ++ String JSON.DQUOTE rest) = Some (s, rest).
Proof.
  induction s as [|c s IH]; [reflexivity|].
  cbn [json_escape]. rewrite append_assoc, parse_chars_escape_char.
  now rewrite IH.
Qed.

Lemma parse_value_JSON_OBJECT (c : CatalogColumn) (rest : string) (fuel : nat) :
  JSON.parse_value (5 + fuel) (JSON_OBJECT c ++ rest)
  = Some (json_build_object c, rest).
Proof.
  unfold JSON_OBJECT, json_quote, dquote, json_build_object.
  rewrite !append_assoc. simpl.
  rewrite parse_chars_escape. simpl.
  rewrite parse_chars_escape. simpl.
  destruct (String.eqb (is_nullable c) "YES"); reflexivity.
Qed.

Lemma parse_value_JSON_OBJECT_fuel (c : CatalogColumn) (rest : string)
    (fuel : nat) :
  5 <= fuel ->
  JSON.parse_value fuel (JSON_OBJECT c ++ rest) = Some (json_build_object c, rest).
Proof.
  intro H. replace fuel with (5 + (fuel - 5)) by lia.
  apply parse_value_JSON_OBJECT.
Qed.

Lemma parse_value_array (fuel : nat) (r : string) :
  JSON.parse_value (S fuel) (String "[" r)
  = match JSON.expect "]" r with
    | Some rest => Some (JArray [], rest)
    | None =>
        match JSON.parse_elements fuel r with
        | Some (vs, rest) => Some (JArray vs, rest)
        | None => None
        end
    end.
Proof. reflexivity. Qed.

Lemma expect_comma (r : string) : JSON.expect "," (String "," r) = Some r.
Proof. reflexivity. Qed.

Lemma expect_bracket_brace (r : string) : JSON.expect "]" (String "{" r) = None.
Proof. reflexivity. Qed.

Lemma parse_elements_objects (cols : list CatalogColumn) :
  forall (c : CatalogColumn) (rest : string) (fuel : nat),
    length cols + 6 <= fuel ->
    JSON.parse_elements fuel
      (String.concat "," (map JSON_OBJECT (c :: cols)) ++ String "]" rest)
    = Some (map json_build_object (c :: cols), rest).
Proof.
  induction cols as [|c1 cols IH]; intros c rest fuel Hfuel;
    (destruct fuel as [|fuel]; [lia|]); rewrite parse_elements_S.
  - cbn [map String.concat].
    rewrite parse_value_JSON_OBJECT_fuel by (simpl in Hfuel; lia).
    reflexivity.
  - cbn [map]. rewrite concat_cons2, !append_assoc.
    rewrite parse_value_JSON_OBJECT_fuel by (simpl in Hfuel; lia).
    cbn [map] in IH.
    set (tail := String.concat "," (JSON_OBJECT c1 :: map JSON_OBJECT cols)
                   ++ String "]" rest) in *.
    change ("," ++ tail) with (String "," tail).
    rewrite expect_comma.
    unfold tail. rewrite IH by (simpl in Hfuel; lia).
    reflexivity.
Qed.

Lemma JSON_OBJECT_head (c : CatalogColumn) :
  exists tail, JSON_OBJECT c = String "{" tail.
Proof. eexists. reflexivity. Qed.

Lemma concat_objects_head (c : CatalogColumn) (cols : list CatalogColumn)
    (rest : string) :
  exists tail,
    String.concat "," (map JSON_OBJECT (c :: cols)) ++ rest = String "{" tail.
Proof.
  destruct (JSON_OBJECT_head c) as [tail Hc].
  destruct cols as [|c1 cols]; cbn [map].
  - cbn [String.concat]. rewrite Hc. eexists. reflexivity.
  - rewrite concat_cons2, Hc. eexists. reflexivity.
Qed.

Lemma JSON_OBJECT_length (c : CatalogColumn) : 6 <= String.length (JSON_OBJECT c).
Proof.
  unfold JSON_OBJECT, json_quote, dquote. simpl. lia.
Qed.

Lemma concat_objects_length (cols : list CatalogColumn) :
  6 * length cols <= String.length (String.concat "," (map JSON_OBJECT cols)).
Proof.
  rewrite <- (length_map JSON_OBJECT cols) at 1.
  apply concat_length_scaled, Forall_forall.
  intros s Hs. apply in_map_iff in Hs as (c & <- & _).
  apply JSON_OBJECT_length.
Qed.

Lemma substring_whole (n : nat) (s : string) :
  String.length s <= n -> substring 0 n s = s.
Proof.
  revert s. induction n as [|n IH]; intros [|c s] Hlen; simpl in Hlen |- *;
    try reflexivity; try lia.
  rewrite IH by lia. reflexivity.
Qed.

(** Within the limit the server hands over the whole concatenation. *)
Lemma GROUP_CONCAT_whole (fragments : list string) :
  String.length (String.concat "," fragments) <= group_concat_max_len ->
  GROUP_CONCAT fragments = String.concat "," fragments.
Proof. apply substring_whole. Qed.

(** Wrapping the whole concatenation in brackets and parsing gives the
    array of the objects. *)
Lemma parse_GROUP_CONCAT (cols : list CatalogColumn) :
  String.length (String.concat "," (map JSON_OBJECT cols)) <= group_concat_max_len ->
  JSON.parse ("[" ++ GROUP_CONCAT (map JSON_OBJECT cols) ++ "]")
  = Normal (JArray (map json_build_object cols)).
Proof.
  intro Hfits. rewrite (GROUP_CONCAT_whole _ Hfits). clear Hfits.
  unfold JSON.parse.
  set (text := "[" ++ String.concat "," (map JSON_OBJECT cols) ++ "]").
  assert (Hlen : String.length text
                 = 2 + String.length (String.concat "," (map JSON_OBJECT cols))).
  { unfold text. rewrite !length_append.
    change (String.length "[") with 1. change (String.length "]") with 1. lia. }
  pose proof (concat_objects_length cols) as Hcols.
  rewrite Hlen. cbn [Nat.add].
  unfold text. cbn [append]. rewrite parse_value_array.
  destruct cols as [|c cols].
  - reflexivity.
  - destruct (concat_objects_head c cols "]") as [tail Htail].
    rewrite Htail, expect_bracket_brace. rewrite <- Htail.
    rewrite parse_elements_objects; [reflexivity|].
    change (Datatypes.length (c :: cols)) with (S (Datatypes.length cols)) in Hcols.
    lia.
Qed.

Lemma mysql_rows_parsed (catalog : list CatalogTable) :
  Forall within_group_concat_max_len catalog ->
  array_map
    (fun row =>
       match JSON.parse ("[" ++ ToString (get_prop row "columns") ++ "]") with
       | Normal cols => Normal {| name := get_prop row "tableName"; columns := cols |}
       | Abrupt e => Abrupt e
       end)
    (map mysql_tables_row catalog)
  = Normal (map table_descriptor catalog).
Proof.
  induction 1 as [|t catalog Hfits _ IH]; [reflexivity|].
  cbn [map array_map].
  change (get_prop (mysql_tables_row t) "columns")
    with (JString (GROUP_CONCAT (map JSON_OBJECT (table_columns t)))).
  cbn [ToString]. rewrite (parse_GROUP_CONCAT _ Hfits), IH. reflexivity.
Qed.

Lemma pg_rows_mapped (catalog : list CatalogTable) :
  map (fun row => {| name := get_prop row "table_name";
                     columns := get_prop row "columns" |})
      (map pg_tables_row catalog)
  = map table_descriptor catalog.
Proof.
  rewrite map_map. apply map_ext. reflexivity.
Qed.

Lemma lift_done {A} (c : Completion A) (this : DatabaseService) :
  lift c this = Done (c, this).
Proof. destruct c; reflexivity. Qed.

Lemma getTables_postgres_on_rows {World} (driver : Driver World)
    (this : DatabaseService) (w w' : World) (rows : list Row) :
  type (config this) = "postgres" ->
  tables_query_returns driver this w rows w' ->
  run driver (getTables this) w
  = ((Normal (map (fun row => {| name := get_prop row "table_name";
                                 columns := get_prop row "columns" |}) rows),
      this), w').
Proof.
  intros Ha [(_ & c & Hc & Hq) | (Hkind & _)];
    [|rewrite Ha in Hkind; discriminate Hkind].
  enter_method. pick_kind Ha. rewrite Hc. simpl. rewrite Hq. reflexivity.
Qed.

Lemma getTables_mysql_on_rows {World} (driver : Driver World)
    (this : DatabaseService) (w w' : World) (rows : list Row) :
  type (config this) = "mysql" ->
  tables_query_returns driver this w rows w' ->
  run driver (getTables this) w
  = ((array_map
        (fun row =>
           match JSON.parse ("[" ++ ToString (get_prop row "columns") ++ "]") with
           | Normal cols =>
               Normal {| name := get_prop row "tableName"; columns := cols |}
           | Abrupt e => Abrupt e
           end) rows,
      this), w').
Proof.
  intros Hb [(Hkind & _) | (_ & c & Hc & Hq)];
    [rewrite Hb in Hkind; discriminate Hkind|].
  enter_method. pick_kind Hb. rewrite Hc. simpl. rewrite Hq.
  cbn [bind_prog]. rewrite lift_done. reflexivity.
Qed.

Lemma tables_query_returns_canned_postgres (rows : list Row) :
  tables_query_returns (canned_driver rows []) postgres_connected tt rows tt.
Proof.
  left. split; [reflexivity|].
  exists {| pg_options := no_parameters |}. split; reflexivity.
Defined.

Lemma tables_query_returns_canned_mysql (rows : list Row) :
  tables_query_returns (canned_driver rows []) mysql_connected tt rows tt.
Proof.
  right. split; [reflexivity|].
  exists {| threadId := 1 |}. split; reflexivity.
Defined.

(** C7, at a catalog on which the two paths part.  The catalog holds
    [customers_table] and its twenty columns.  Relational-A hands over
    the native array of the column objects, and [getTables] returns the
    descriptor of the table with its twenty columns.  Relational-B
    concatenates the JSON texts of the same objects, 1156 bytes in all,
    and cuts the concatenation at [group_concat_max_len], inside the
    object of the column [newsletter]: what [getTables] puts between
    brackets is not a JSON text, and it throws the [SyntaxError] of
    [JSON.parse] where the other path returns the descriptor. *)
Theorem getTables_relational_B_cuts_wide_table :
  String.length
    (String.concat "," (map JSON_OBJECT (table_columns customers_table)))
  = 1156
  /\ run (canned_driver (map pg_tables_row [customers_table]) [])
         (getTables postgres_connected) tt
     = ((Normal [table_descriptor customers_table], postgres_connected), tt)
  /\ exists message,
       run (canned_driver (map mysql_tables_row [customers_table]) [])
           (getTables mysql_connected) tt
       = ((Abrupt (SyntaxError message), mysql_connected), tt).
Proof.
  split; [reflexivity|].
  split; [reflexivity|].
  eexists. vm_compute. reflexivity.
Qed.

(** * Further properties of the adapter *)

Ltac by_kind this :=
  destruct (String.eqb (type (config this)) "postgres") eqn:?;
  [| destruct (String.eqb (type (config this)) "mysql") eqn:?;
     [| destruct (String.eqb (type (config this)) "firestore") eqn:? ] ].

Ltac by_handle this :=
  try (destruct (postgresClient this) eqn:?);
  try (destruct (mysqlConnection this) eqn:?);
  try (destruct (firestoreClient this) eqn:?).

Section Adapter.

Context {World : Type}.
Variable driver : Driver World.

Ltac by_reply :=
  repeat match goal with
         | |- context [driver ?X ?call ?w] =>
             destruct (driver X call w) as [[?|?] ?]; simpl
         end.

Ltac run_method this :=
  enter_method; by_kind this; simpl; by_handle this; simpl; by_reply;
  rewrite ?lift_done; simpl.

(** X1. Whatever the driver answers, the seven methods other than
    [connect] leave the fields of the adapter as they found them: none
    of them creates a handle, and [disconnect] does not clear the one it
    closes. *)
Theorem operations_keep_fields (this : DatabaseService) (arg : string)
    (w : World) :
  snd (fst (run driver (getTables this) w)) = this
  /\ snd (fst (run driver (getTriggers this) w)) = this
  /\ snd (fst (run driver (getFunctions this) w)) = this
  /\ snd (fst (run driver (executeQuery arg this) w)) = this
  /\ snd (fst (run driver (exportTableSchema arg this) w)) = this
  /\ snd (fst (run driver (exportTableData arg this) w)) = this
  /\ snd (fst (run driver (disconnect this) w)) = this.
Proof.
  repeat split; run_method this; reflexivity.
Qed.

(** X2. Every method is at most one round trip: against any driver, in
    any state of the adapter, it makes at most one driver call. *)
Theorem methods_call_driver_at_most_once (this : DatabaseService)
    (arg : string) (w : World) :
  length (trace driver (connect this) w) <= 1
  /\ length (trace driver (getTables this) w) <= 1
  /\ length (trace driver (getTriggers this) w) <= 1
  /\ length (trace driver (getFunctions this) w) <= 1
  /\ length (trace driver (executeQuery arg this) w) <= 1
  /\ length (trace driver (exportTableSchema arg this) w) <= 1
  /\ length (trace driver (exportTableData arg this) w) <= 1
  /\ length (trace driver (disconnect this) w) <= 1.
Proof.
  repeat split; run_method this; auto.
Qed.

End Adapter.

(** ** What [connect] leaves behind *)

Section Connect.

Context {World : Type}.
Variable driver : Driver World.

(** X3. On the relational-A kind, [connect] stores the client before
    the handshake: it completes as the handshake settles, the rejection
    being rethrown as it is, and in both cases the adapter holds the
    client built from its configuration.  So after a failed [connect]
    an [executeQuery] does not report a missing connection: it sends
    the query on that client. *)
Theorem connect_postgres_stores_client_first (this : DatabaseService)
    (query : string) (w : World)
    (Hkind : type (config this) = "postgres") :
  let client := {| pg_options := connection (config this) |} in
  let stored :=
    {| postgresClient := Some client;
       mysqlConnection := mysqlConnection this;
       firestoreClient := firestoreClient this;
       config := config this |} in
  run driver (connect this) w
    = ((match fst (driver _ (pg_connect client) w) with
        | Fulfilled _ => Normal tt
        | Rejected e => Abrupt e
        end, stored), snd (driver _ (pg_connect client) w))
  /\ forall w1, trace driver (executeQuery query stored) w1
                = [a_call (pg_query client query [])].
Proof.
  split.
  - enter_method. pick_kind Hkind.
    destruct (driver unit _ w) as [[[]|e] w1]; reflexivity.
  - intro w1. enter_method. pick_kind Hkind.
    destruct (driver (list Row) _ w1) as [[rows|e] w2]; reflexivity.
Qed.

(** X4. On the relational-B kind, [connect] stores the connection only
    once the driver has handed it over: when [createConnection] is
    rejected the exception is rethrown as it is and the fields are
    untouched, so the adapter still has no handle. *)
Theorem connect_mysql_stores_connection_on_success (this : DatabaseService)
    (w : World)
    (Hkind : type (config this) = "mysql") :
  run driver (connect this) w
  = match driver _ (mysql_createConnection (connection (config this))) w with
    | (Fulfilled conn, w') =>
        ((Normal tt,
          {| postgresClient := postgresClient this;
             mysqlConnection := Some conn;
             firestoreClient := firestoreClient this;
             config := config this |}), w')
    | (Rejected e, w') => ((Abrupt e, this), w')
    end.
Proof.
  enter_method.
  assert (Hp : String.eqb (type (config this)) "postgres" = false)
    by (rewrite Hkind; reflexivity).
  rewrite Hp. pick_kind Hkind.
  destruct (driver MysqlConnection _ w) as [[conn|e] w1]; reflexivity.
Qed.


End Connect.

Lemma connect_postgres_stores_client_first_witness :
  type (config (constructor postgres_config)) = "postgres"
  /\ run (failing_driver (DriverError "connect ECONNREFUSED"))
         (connect (constructor postgres_config)) tt
     = ((Abrupt (DriverError "connect ECONNREFUSED"), postgres_connected), tt)
  /\ trace (failing_driver (DriverError "connect ECONNREFUSED"))
           (executeQuery "SELECT 1" postgres_connected) tt
     = [a_call (pg_query {| pg_options := no_parameters |} "SELECT 1" [])].
Proof.
  split; [reflexivity|].
  destruct (connect_postgres_stores_client_first
              (failing_driver (DriverError "connect ECONNREFUSED"))
              (constructor postgres_config) "SELECT 1" tt eq_refl)
    as [Hrun Htrace].
  split; [exact Hrun | exact (Htrace tt)].
Defined.

Lemma connect_mysql_stores_connection_on_success_witness :
  type (config (constructor mysql_config)) = "mysql"
  /\ run (failing_driver (DriverError "connect ECONNREFUSED"))
         (connect (constructor mysql_config)) tt
     = ((Abrupt (DriverError "connect ECONNREFUSED"), constructor mysql_config), tt)
  /\ run (canned_driver [] []) (connect (constructor mysql_config)) tt
     = ((Normal tt, mysql_connected), tt).
Proof.
  split; [reflexivity|].
  split.
  - exact (connect_mysql_stores_connection_on_success
             (failing_driver (DriverError "connect ECONNREFUSED"))
             (constructor mysql_config) tt eq_refl).
  - exact (connect_mysql_stores_connection_on_success
             (canned_driver [] []) (constructor mysql_config) tt eq_refl).
Defined.


(** ** Failures of the driver, and the order of calls *)

Section Propagation.

Context {World : Type}.
Variable driver : Driver World.

(** X6. On a connected relational adapter, when the driver rejects the
    call with [e], each of the six operations throws [e] itself, neither
    wrapped nor replaced, and the fields are as before. *)
Theorem driver_rejection_is_rethrown (this : DatabaseService) (arg : string)
    (w w' : World) (e : Exn)
    (Hconnected : relational_connected this)
    (Hrejects : rejects_all driver w e w') :
  run driver (getTables this) w = ((Abrupt e, this), w')
  /\ run driver (getTriggers this) w = ((Abrupt e, this), w')
  /\ run driver (getFunctions this) w = ((Abrupt e, this), w')
  /\ run driver (executeQuery arg this) w = ((Abrupt e, this), w')
  /\ run driver (exportTableSchema arg this) w = ((Abrupt e, this), w')
  /\ run driver (exportTableData arg this) w = ((Abrupt e, this), w').
Proof.
  destruct Hconnected as [(Hkind & c & Hc) | (Hkind & c & Hc)];
    repeat split; enter_method; pick_kind Hkind; rewrite Hc; simpl;
    rewrite Hrejects; reflexivity.
Qed.

(** X7. [connect] then [executeQuery] on a relational adapter whose
    connection the driver accepts: the query is sent as it is on the
    handle [connect] stored, and the composition completes as the
    driver settles the query, with its rows or its exception; the
    guard for a missing connection never fires. *)
Theorem connect_then_executeQuery (this : DatabaseService) (query : string)
    (w w1 : World) :
  (type (config this) = "postgres" ->
   driver _ (pg_connect {| pg_options := connection (config this) |}) w
     = (Fulfilled tt, w1) ->
   let client := {| pg_options := connection (config this) |} in
   let stored :=
     {| postgresClient := Some client;
        mysqlConnection := mysqlConnection this;
        firestoreClient := firestoreClient this;
        config := config this |} in
   run driver ((connect ;;; executeQuery query) this) w
   = match driver _ (pg_query client query []) w1 with
     | (Fulfilled rows, w2) => ((Normal rows, stored), w2)
     | (Rejected e, w2) => ((Abrupt e, stored), w2)
     end)
  /\ (forall conn,
      type (config this) = "mysql" ->
      driver _ (mysql_createConnection (connection (config this))) w
        = (Fulfilled conn, w1) ->
      let stored :=
        {| postgresClient := postgresClient this;
           mysqlConnection := Some conn;
           firestoreClient := firestoreClient this;
           config := config this |} in
      run driver ((connect ;;; executeQuery query) this) w
      = match driver _ (mysql_query conn query []) w1 with
        | (Fulfilled rows, w2) => ((Normal rows, stored), w2)
        | (Rejected e, w2) => ((Abrupt e, stored), w2)
        end).
Proof.
  split.
  - intros Hkind Hconnect. enter_method. pick_kind Hkind. rewrite Hconnect.
    simpl. pick_kind Hkind.
    destruct (driver (list Row) _ w1) as [[rows|e] w2]; reflexivity.
  - intros conn Hkind Hconnect. enter_method.
    assert (Hp : String.eqb (type (config this)) "postgres" = false)
      by (rewrite Hkind; reflexivity).
    rewrite Hp. pick_kind Hkind. rewrite Hconnect. simpl.
    rewrite Hp. pick_kind Hkind.
    destruct (driver (list Row) _ w1) as [[rows|e] w2]; reflexivity.
Qed.

(** X9. [disconnect] closes the handle and keeps it: after a
    [disconnect] that the driver accepts, any method runs exactly as it
    would have run on the adapter before, from the world the close left;
    in particular the SQL operations still send their statement on the
    closed handle instead of reporting a missing connection. *)
Theorem disconnect_keeps_the_handle {A} (op : M A) (this : DatabaseService)
    (w w1 : World)
    (Hend :
       (type (config this) = "postgres"
        /\ exists c, postgresClient this = Some c
             /\ driver _ (pg_end c) w = (Fulfilled tt, w1))
       \/ (type (config this) = "mysql"
        /\ exists c, mysqlConnection this = Some c
             /\ driver _ (mysql_end c) w = (Fulfilled tt, w1))) :
  run driver ((disconnect ;;; op) this) w = run driver (op this) w1.
Proof.
  destruct Hend as [(Hkind & c & Hc & Hcall) | (Hkind & c & Hc & Hcall)];
    unfold disconnect, bind, this_; simpl; pick_kind Hkind; rewrite Hc; simpl;
    rewrite Hcall; reflexivity.
Qed.

End Propagation.

(** X8. Before [connect], [disconnect] is a silent no-op for every
    configuration, relational kinds included: the missing handle is
    skipped, no driver is called and nothing is thrown. *)
Theorem disconnect_before_connect_is_silent (cfg : DatabaseConfig) :
  disconnect (constructor cfg) = Done (Normal tt, constructor cfg).
Proof.
  enter_method.
  destruct (String.eqb (type cfg) "postgres"); [reflexivity|].
  destruct (String.eqb (type cfg) "mysql"); reflexivity.
Qed.

Lemma rejects_all_failing_driver (e : Exn) :
  rejects_all (failing_driver e) tt e tt.
Proof. intros X call. reflexivity. Defined.

Lemma relational_connected_mysql : relational_connected mysql_connected.
Proof.
  right. split; [reflexivity|]. now exists {| threadId := 1 |}.
Defined.

Lemma driver_rejection_is_rethrown_witness :
  relational_connected mysql_connected
  /\ rejects_all (failing_driver (DriverError "Table 'shop.users' doesn't exist"))
       tt (DriverError "Table 'shop.users' doesn't exist") tt
  /\ run (failing_driver (DriverError "Table 'shop.users' doesn't exist"))
         (exportTableSchema "users" mysql_connected) tt
     = ((Abrupt (DriverError "Table 'shop.users' doesn't exist"), mysql_connected),
        tt).
Proof.
  split; [exact relational_connected_mysql|].
  split; [apply rejects_all_failing_driver|].
  destruct (driver_rejection_is_rethrown
              (failing_driver (DriverError "Table 'shop.users' doesn't exist"))
              mysql_connected "users" tt tt _
              relational_connected_mysql (rejects_all_failing_driver _))
    as (_ & _ & _ & _ & Hschema & _).
  exact Hschema.
Defined.

Lemma connect_then_executeQuery_witness :
  type (config (constructor postgres_config)) = "postgres"
  /\ canned_driver users_rows [] unit
       (pg_connect {| pg_options := no_parameters |}) tt = (Fulfilled tt, tt)
  /\ run (canned_driver users_rows [])
         ((connect ;;; executeQuery "SELECT * FROM users")
            (constructor postgres_config)) tt
     = ((Normal users_rows, postgres_connected), tt).
Proof.
  split; [reflexivity|].
  split; [reflexivity|].
  exact (proj1 (connect_then_executeQuery (canned_driver users_rows [])
                  (constructor postgres_config) "SELECT * FROM users" tt tt)
               eq_refl eq_refl).
Defined.

Lemma disconnect_keeps_the_handle_witness :
  (type (config postgres_connected) = "postgres"
   /\ exists c, postgresClient postgres_connected = Some c
        /\ canned_driver users_rows [] unit (pg_end c) tt = (Fulfilled tt, tt))
  /\ run (canned_driver users_rows [])
         ((disconnect ;;; executeQuery "SELECT * FROM users") postgres_connected) tt
     = ((Normal users_rows, postgres_connected), tt).
Proof.
  assert (Hend :
    type (config postgres_connected) = "postgres"
    /\ exists c, postgresClient postgres_connected = Some c
         /\ canned_driver users_rows [] unit (pg_end c) tt = (Fulfilled tt, tt)).
  { split; [reflexivity|].
    exists {| pg_options := no_parameters |}. split; reflexivity. }
  split; [exact Hend|].
  rewrite (disconnect_keeps_the_handle (canned_driver users_rows [])
             (executeQuery "SELECT * FROM users") postgres_connected tt tt
             (or_introl Hend)).
  reflexivity.
Defined.

(** ** Edges of the exports *)

(** X10. [exportTableSchema] reads the first row only, under the key of
    the adapter's kind ([create_table_sql] for relational-A,
    [Create Table] for relational-B): when that row holds a non-empty
    string there, this string is the result whatever the other rows
    are; when it holds null or nothing there, the result is the empty
    string. *)
Theorem exportTableSchema_reads_first_row {World} (driver : Driver World)
    (this : DatabaseService) (tableName : string) (w w' : World)
    (row : Row) (rest : list Row)
    (Hquery : schema_query_returns driver this tableName w (row :: rest) w') :
  let key := if String.eqb (type (config this)) "postgres"
             then "create_table_sql" else "Create Table" in
  (forall ddl, get_prop row key = JString ddl -> ddl <> "" ->
     run driver (exportTableSchema tableName this) w
     = ((Normal (JString ddl), this), w'))
  /\ (get_prop row key = JNull \/ get_prop row key = JUndefined ->
     run driver (exportTableSchema tableName this) w
     = ((Normal (JString ""), this), w')).
Proof.
  intro key. rewrite (exportTableSchema_on_rows _ _ _ _ _ _ Hquery).
  fold key. cbn [first_row_prop]. split.
  - intros ddl Hddl Hne. rewrite Hddl. unfold js_or. cbn [truthy].
    apply String.eqb_neq in Hne. now rewrite Hne.
  - intros [H | H]; rewrite H; reflexivity.
Qed.

Lemma exportTableSchema_reads_first_row_witness :
  schema_query_returns (canned_driver show_create_rows []) mysql_connected
    "users" tt show_create_rows tt
  /\ run (canned_driver show_create_rows [])
         (exportTableSchema "users" mysql_connected) tt
     = ((Normal (JString "CREATE TABLE `users` (`id` int)"), mysql_connected), tt).
Proof.
  split; [apply schema_query_returns_canned_mysql|].
  apply (proj1 (exportTableSchema_reads_first_row
                  (canned_driver show_create_rows []) mysql_connected "users" tt tt
                  [("Table", JString "users");
                   ("Create Table", JString "CREATE TABLE `users` (`id` int)")] []
                  (schema_query_returns_canned_mysql show_create_rows "users"))
               "CREATE TABLE `users` (`id` int)" eq_refl).
  discriminate.
Defined.

Lemma insert_statement_same_cells (tableName : string) (columns : list string)
    (row row' : Row) :
  Forall (fun col => get_prop row col = get_prop row' col) columns ->
  insert_statement tableName columns row = insert_statement tableName columns row'.
Proof.
  intro H. unfold insert_statement.
  assert (Hcells : map (fun col => format_cell (get_prop row col)) columns
                   = map (fun col => format_cell (get_prop row' col)) columns).
  { induction H as [|col cols Hcol _ IH]; cbn [map]; [reflexivity|].
    now rewrite Hcol, IH. }
  now rewrite Hcells.
Qed.

(** X11. The columns of the whole export are those of the first row:
    what a later row holds under any other key never reaches the text.
    Two result sets with the same first row whose later rows agree, one
    by one, on the columns of the first row are exported alike. *)
Theorem exportTableData_columns_of_first_row {World} (driver driver' : Driver World)
    (this : DatabaseService) (tableName : string) (w w1 w' w1' : World)
    (row0 : Row) (rest rest' : list Row)
    (Hselect : select_returns driver this tableName w (row0 :: rest) w1)
    (Hselect' : select_returns driver' this tableName w' (row0 :: rest') w1')
    (Hagree : Forall2 (fun row row' =>
                 Forall (fun col => get_prop row col = get_prop row' col)
                        (Object_keys row0)) rest rest') :
  fst (fst (run driver (exportTableData tableName this) w))
  = fst (fst (run driver' (exportTableData tableName this) w')).
Proof.
  rewrite (exportTableData_on_rows _ _ _ _ _ _ Hselect).
  rewrite (exportTableData_on_rows _ _ _ _ _ _ Hselect').
  clear Hselect Hselect'. cbn [fst]. f_equal. unfold insert_statements.
  assert (Hmap : map (insert_statement tableName (Object_keys row0)) rest
                 = map (insert_statement tableName (Object_keys row0)) rest').
  { induction Hagree as [|row row' rows rows' Hrow _ IH]; cbn [map];
      [reflexivity|].
    rewrite IH. f_equal. now apply insert_statement_same_cells. }
  cbn [map]. now rewrite Hmap.
Qed.

Lemma exportTableData_columns_of_first_row_witness :
  select_returns (canned_driver ragged_rows []) postgres_connected "t" tt
    ragged_rows tt
  /\ select_returns (canned_driver trimmed_rows []) postgres_connected "t" tt
    trimmed_rows tt
  /\ fst (fst (run (canned_driver ragged_rows [])
                   (exportTableData "t" postgres_connected) tt))
     = fst (fst (run (canned_driver trimmed_rows [])
                     (exportTableData "t" postgres_connected) tt)).
Proof.
  split; [apply select_returns_canned_postgres|].
  split; [apply select_returns_canned_postgres|].
  apply (exportTableData_columns_of_first_row
           (canned_driver ragged_rows []) (canned_driver trimmed_rows [])
           postgres_connected "t" tt tt tt tt
           [("id", JNumber 1)]
           [ [("id", JNumber 2); ("note", JString "x")] ] [ [("id", JNumber 2)] ]
           (select_returns_canned_postgres ragged_rows "t")
           (select_returns_canned_postgres trimmed_rows "t")).
  repeat constructor.
Defined.

(** * Properties of the command shell *)

Lemma settle_run {World A} (driver : Driver World)
    (p : Prog (Completion A * DatabaseService)) (ok : A -> ToolResult)
    (prefix : string) :
  forall w,
    run driver (settle p ok prefix) w
    = (let '((c, svc'), w') := run driver p w in
       ((match c with
         | Normal a => ok a
         | Abrupt e => error_result (prefix ++ error_message e)
         end, Some svc'), w'))
    /\ trace driver (settle p ok prefix) w = trace driver p w.
Proof.
  induction p as [[[a|e] svc] | X call k IH]; intro w.
  - split; reflexivity.
  - split; reflexivity.
  - cbn [settle run trace].
    destruct (driver X call w) as [r w1].
    destruct (IH r w1) as [Hrun Htrace]. split.
    + exact Hrun.
    + now rewrite Htrace.
Qed.

Lemma guarded_reports {A} (body : M A) (ok : A -> ToolResult) (prefix : string) :
  reports (guarded body ok prefix) body ok prefix.
Proof.
  intros World driver svc w. apply settle_run.
Qed.

(** X13. With an adapter in the session, each of the six operation
    tools makes exactly the driver calls of its adapter method and
    reports how the method completed: [isError] is set exactly when the
    method threw, the text then being the tool's own prefix followed by
    the message of the exception; otherwise the text is the result (the
    exported text as it is for the two export tools). *)
Theorem tools_report_the_method (JSON_stringify : JsValue -> string)
    (arg : string) :
  reports (tool_tables JSON_stringify) getTables
    (fun tables => text_result (JSON_stringify (JArray (map TableInfo_value tables))))
    "Failed to get table information: "
  /\ reports (tool_triggers JSON_stringify) getTriggers
    (fun rows => text_result (JSON_stringify (JArray (map JObject rows))))
    "Failed to get trigger information: "
  /\ reports (tool_functions JSON_stringify) getFunctions
    (fun rows => text_result (JSON_stringify (JArray (map JObject rows))))
    "Failed to get function information: "
  /\ reports (tool_query JSON_stringify arg) (executeQuery arg)
    (fun rows => text_result (JSON_stringify (JArray (map JObject rows))))
    "Failed to execute query: "
  /\ reports (tool_export_db arg) (exportTableSchema arg)
    (fun schema => {| content := [schema]; isError := false |})
    "Failed to export table schema: "
  /\ reports (tool_export_data arg) (exportTableData arg)
    text_result "Failed to export table data: ".
Proof.
  repeat split; apply guarded_reports.
Qed.

Section Shell.

Context {World : Type}.
Variable driver : Driver World.
Variable JSON_stringify : JsValue -> string.

(** X14. A connection tool always replaces the session, whatever it
    held, by the adapter it has just built, and it does so even when
    the connection fails: after a rejected [!pg] the session holds an
    adapter with its client stored, after a rejected [!mysql] an adapter
    with no handle at all.  The result is the success text, or the
    tool's prefix followed by the message of the driver's exception. *)
Theorem connection_tools_replace_the_session (args : DatabaseConnectionConfig)
    (previous : Session) (w : World) :
  run driver (tool_pg args previous) w
  = (let stored :=
       {| postgresClient := Some {| pg_options := args |};
          mysqlConnection := None;
          firestoreClient := None;
          config := {| type := "postgres"; connection := args |} |} in
     match driver _ (pg_connect {| pg_options := args |}) w with
     | (Fulfilled _, w') =>
         ((text_result "Successfully connected to PostgreSQL database!",
           Some stored), w')
     | (Rejected e, w') =>
         ((error_result ("PostgreSQL connection error: " ++ error_message e),
           Some stored), w')
     end)
  /\ run driver (tool_mysql args previous) w
  = match driver _ (mysql_createConnection args) w with
    | (Fulfilled conn, w') =>
        ((text_result "Successfully connected to MySQL database!",
          Some {| postgresClient := None;
                  mysqlConnection := Some conn;
                  firestoreClient := None;
                  config := {| type := "mysql"; connection := args |} |}), w')
    | (Rejected e, w') =>
        ((error_result ("MySQL connection error: " ++ error_message e),
          Some (constructor {| type := "mysql"; connection := args |})), w')
    end
  /\ run driver (tool_firestore args previous) w
  = ((text_result "Successfully connected to Firestore database!",
      Some {| postgresClient := None;
              mysqlConnection := None;
              firestoreClient := Some {| fs_settings := args |};
              config := {| type := "firestore"; connection := args |} |}), w).
Proof.
  repeat split.
  - unfold tool_pg. enter_method.
    destruct (driver unit _ w) as [[[]|e] w1]; reflexivity.
  - unfold tool_mysql. enter_method.
    destruct (driver MysqlConnection _ w) as [[conn|e] w1]; reflexivity.
Qed.

(** X15. The guard of the operation tools looks at the session, not at
    the handle.  With no session, each of the six tools answers "You
    must connect to a database first!" without calling a driver.  After
    a [!mysql] whose connection the driver rejected, the guard lets the
    tools through: [!tables] reports the fault of reading [query] off
    the missing connection, [!query] the adapter's own "MySQL connection
    not found", and no driver is called. *)
Theorem guard_follows_the_session (args : DatabaseConnectionConfig)
    (previous : Session) (query : string) (w w1 : World) (e : Exn)
    (Hrejected : driver _ (mysql_createConnection args) w = (Rejected e, w1)) :
  let session := snd (fst (run driver (tool_mysql args previous) w)) in
  (tool_tables JSON_stringify None
     = Done (error_result "You must connect to a database first!", None)
   /\ tool_triggers JSON_stringify None
     = Done (error_result "You must connect to a database first!", None)
   /\ tool_functions JSON_stringify None
     = Done (error_result "You must connect to a database first!", None)
   /\ tool_query JSON_stringify query None
     = Done (error_result "You must connect to a database first!", None)
   /\ tool_export_db query None
     = Done (error_result "You must connect to a database first!", None)
   /\ tool_export_data query None
     = Done (error_result "You must connect to a database first!", None))
  /\ tool_tables JSON_stringify session
     = Done (error_result
               ("Failed to get table information: "
                  ++ "Cannot read properties of undefined (reading 'query')"),
             session)
  /\ tool_query JSON_stringify query session
     = Done (error_result "Failed to execute query: MySQL connection not found",
             session).
Proof.
  intro session.
  assert (Hsession :
    session = Some (constructor {| type := "mysql"; connection := args |})).
  { unfold session, tool_mysql. enter_method. rewrite Hrejected. reflexivity. }
  split; [repeat split|].
  rewrite Hsession. split; reflexivity.
Qed.

(** X16. No tool ever closes a handle: whatever the session and the
    driver's answers, none of the nine tools calls [end] on a client or
    a connection.  The shell never disconnects, and connecting again
    drops the adapter of the session with its handle still open. *)
Theorem tools_never_close_a_handle (args : DatabaseConnectionConfig)
    (arg : string) (session : Session) (w : World) :
  existsb closes_handle (trace driver (tool_pg args session) w) = false
  /\ existsb closes_handle (trace driver (tool_mysql args session) w) = false
  /\ existsb closes_handle (trace driver (tool_firestore args session) w) = false
  /\ existsb closes_handle (trace driver (tool_tables JSON_stringify session) w) = false
  /\ existsb closes_handle (trace driver (tool_triggers JSON_stringify session) w) = false
  /\ existsb closes_handle (trace driver (tool_functions JSON_stringify session) w) = false
  /\ existsb closes_handle (trace driver (tool_query JSON_stringify arg session) w) = false
  /\ existsb closes_handle (trace driver (tool_export_db arg session) w) = false
  /\ existsb closes_handle (trace driver (tool_export_data arg session) w) = false.
Proof.
  assert (Hmethod : forall A (body : M A) ok prefix,
    (forall svc, existsb closes_handle (trace driver (body svc) w) = false) ->
    existsb closes_handle (trace driver (guarded body ok prefix session) w) = false).
  { intros A body ok prefix Hbody. destruct session as [svc|]; [|reflexivity].
    cbn [guarded]. rewrite (proj2 (settle_run driver _ _ _ w)). apply Hbody. }
  repeat split;
    try (unfold tool_pg, tool_mysql, tool_firestore;
         rewrite (proj2 (settle_run driver _ _ _ w)); enter_method;
         repeat match goal with
                | |- context [driver ?X ?call ?w0] =>
                    destruct (driver X call w0) as [[?|?] ?]; simpl
                end; reflexivity);
    apply Hmethod; intro svc; enter_method; by_kind svc; simpl; by_handle svc;
    simpl;
    repeat match goal with
           | |- context [driver ?X ?call ?w0] =>
               destruct (driver X call w0) as [[?|?] ?]; simpl
           end;
    rewrite ?lift_done; reflexivity.
Qed.

End Shell.

Lemma guard_follows_the_session_witness :
  failing_driver (DriverError "connect ECONNREFUSED") MysqlConnection
    (mysql_createConnection no_parameters) tt
  = (Rejected (DriverError "connect ECONNREFUSED"), tt)
  /\ tool_tables ToString (Some (constructor mysql_config))
     = Done (error_result
               ("Failed to get table information: "
                  ++ "Cannot read properties of undefined (reading 'query')"),
             Some (constructor mysql_config)).
Proof.
  split; [reflexivity|].
  exact (proj1 (proj2 (guard_follows_the_session
                         (failing_driver (DriverError "connect ECONNREFUSED"))
                         ToString no_parameters None "SELECT 1" tt tt
                         (DriverError "connect ECONNREFUSED") eq_refl))).
Defined.

(** * Further properties of the relational branches *)




(** X18. On a connected relational adapter whose driver answers with
    [rows], [executeQuery] sends the text it was given, unchanged and
    without values, on the handle of the adapter's kind, and like
    [getTriggers] and [getFunctions] it returns the rows of the driver
    as they are, in the driver's order. *)
Theorem relational_rows_pass_through {World} (driver : Driver World)
    (this : DatabaseService) (query : string) (w w' : World) (rows : list Row)
    (Hconnected : relational_connected this)
    (Hanswers : answers_rows driver w rows w') :
  run driver (executeQuery query this) w = ((Normal rows, this), w')
  /\ run driver (getTriggers this) w = ((Normal rows, this), w')
  /\ run driver (getFunctions this) w = ((Normal rows, this), w')
  /\ ((exists c, postgresClient this = Some c
         /\ trace driver (executeQuery query this) w = [a_call (pg_query c query [])])
      \/ (exists c, mysqlConnection this = Some c
         /\ trace driver (executeQuery query this) w
            = [a_call (mysql_query c query [])])).
Proof.
  destruct Hanswers as [Hpg Hmy].
  destruct Hconnected as [(Hkind & c & Hc) | (Hkind & c & Hc)].
  - repeat split;
      try (enter_method; pick_kind Hkind; rewrite Hc; simpl; rewrite Hpg;
           reflexivity).
    left. exists c. split; [exact Hc|].
    enter_method. pick_kind Hkind. rewrite Hc. simpl. rewrite Hpg. reflexivity.
  - repeat split;
      try (enter_method; pick_kind Hkind; rewrite Hc; simpl; rewrite Hmy;
           reflexivity).
    right. exists c. split; [exact Hc|].
    enter_method. pick_kind Hkind. rewrite Hc. simpl. rewrite Hmy. reflexivity.
Qed.

Lemma answers_rows_canned (rows : list Row) :
  answers_rows (canned_driver rows []) tt rows tt.
Proof. split; intros; reflexivity. Defined.

Lemma relational_rows_pass_through_witness :
  relational_connected mysql_connected
  /\ answers_rows (canned_driver users_rows []) tt users_rows tt
  /\ run (canned_driver users_rows []) (executeQuery "SELECT * FROM users" mysql_connected) tt
     = ((Normal users_rows, mysql_connected), tt).
Proof.
  split; [exact relational_connected_mysql|].
  split; [apply answers_rows_canned|].
  exact (proj1 (relational_rows_pass_through (canned_driver users_rows [])
                  mysql_connected "SELECT * FROM users" tt tt users_rows
                  relational_connected_mysql (answers_rows_canned users_rows))).
Defined.

(** X19. Within the limit of relational-B's concatenation the two
    relational listings agree.  Let the same catalog be served by the
    two servers: relational-A answers the [getTables] statement with,
    for each table, the native array of the column objects;
    relational-B answers it with the comma-separated concatenation of
    the JSON texts of the same objects, which for every table is at most
    [group_concat_max_len] bytes long and so arrives whole.  Then
    [getTables] on the relational-A adapter and [getTables] on the
    relational-B adapter, which wraps that text in brackets and parses
    it, return the same descriptors: for each table its name and one
    [{name, type, nullable}] per column. *)
Theorem getTables_paths_agree_within_limit {World1 World2}
    (driver1 : Driver World1) (driver2 : Driver World2)
    (a b : DatabaseService) (catalog : list CatalogTable)
    (w1 w1' : World1) (w2 w2' : World2)
    (Ha : type (config a) = "postgres")
    (Hb : type (config b) = "mysql")
    (Hfits : Forall within_group_concat_max_len catalog)
    (Hpg : tables_query_returns driver1 a w1 (map pg_tables_row catalog) w1')
    (Hmy : tables_query_returns driver2 b w2 (map mysql_tables_row catalog) w2') :
  run driver1 (getTables a) w1 = ((Normal (map table_descriptor catalog), a), w1')
  /\ run driver2 (getTables b) w2 = ((Normal (map table_descriptor catalog), b), w2').
Proof.
  split.
  - rewrite (getTables_postgres_on_rows _ _ _ _ _ Ha Hpg).
    now rewrite pg_rows_mapped.
  - rewrite (getTables_mysql_on_rows _ _ _ _ _ Hb Hmy).
    now rewrite (mysql_rows_parsed _ Hfits).
Qed.

Lemma users_catalog_within_limit : Forall within_group_concat_max_len users_catalog.
Proof.
  repeat constructor; unfold within_group_concat_max_len;
    apply Nat.leb_le; reflexivity.
Defined.

Lemma getTables_paths_agree_within_limit_witness :
  type (config postgres_connected) = "postgres"
  /\ type (config mysql_connected) = "mysql"
  /\ Forall within_group_concat_max_len users_catalog
  /\ tables_query_returns (canned_driver (map pg_tables_row users_catalog) [])
       postgres_connected tt (map pg_tables_row users_catalog) tt
  /\ tables_query_returns (canned_driver (map mysql_tables_row users_catalog) [])
       mysql_connected tt (map mysql_tables_row users_catalog) tt
  /\ run (canned_driver (map pg_tables_row users_catalog) [])
         (getTables postgres_connected) tt
     = ((Normal (map table_descriptor users_catalog), postgres_connected), tt)
  /\ run (canned_driver (map mysql_tables_row users_catalog) [])
         (getTables mysql_connected) tt
     = ((Normal (map table_descriptor users_catalog), mysql_connected), tt).
Proof.
  split; [reflexivity|].
  split; [reflexivity|].
  split; [exact users_catalog_within_limit|].
  split; [apply tables_query_returns_canned_postgres|].
  split; [apply tables_query_returns_canned_mysql|].
  apply (getTables_paths_agree_within_limit
           (canned_driver (map pg_tables_row users_catalog) [])
           (canned_driver (map mysql_tables_row users_catalog) [])
           postgres_connected mysql_connected users_catalog tt tt tt tt
           eq_refl eq_refl users_catalog_within_limit
           (tables_query_returns_canned_postgres _)
           (tables_query_returns_canned_mysql _)).
Defined.
